(** * The download orchestration layer of the video-downloader backend

    A shallow embedding of [src/services/ytDlpService.ts]: platform
    detection, URL cleaning, the argument profile of the extractor, the
    two-tier process invocation, the derivation of the enrichment fields
    from the probe's metadata, and the orchestration sequence itself.

    Conventions.
    - A JavaScript string is a [string]; every pattern the service searches
      for is ASCII, so searching bytes and searching UTF-16 code units agree.
    - A JavaScript value of type [any] is a [JSValue]; a JSON number is an
      exact rational (the service only tests numbers for zero and for the
      sign of a difference).
    - Code that talks to the outside (child processes, the file system, the
      random identifier, the clock) is a [Prog]: a tree of requests to the
      environment.  [exec] runs a [Prog] against a handler over an arbitrary
      world and records the calls that were made. *)

From Stdlib Require Import Bool List Arith ZArith QArith Lia Lqa.
From Stdlib Require Import Permutation Sorted.
From Stdlib Require Import Ascii String DecimalString.
Import ListNotations.

Open Scope list_scope.
Open Scope string_scope.

Set Implicit Arguments.

(** ** JavaScript string primitives *)

Module JsString.

(** [s.startsWith(p)] *)
Fixpoint startsWith (s p : string) {struct p} : bool :=
  match p with
  | EmptyString => true
  | String c p' =>
      match s with
      | EmptyString => false
      | String d s' => Ascii.eqb c d && startsWith s' p'
      end
  end.

(** [s.includes(t)] *)
Fixpoint includes (s t : string) : bool :=
  startsWith s t ||
  match s with
  | EmptyString => false
  | String _ s' => includes s' t
  end.

(** [s.endsWith(t)] *)
Fixpoint endsWith (s t : string) : bool :=
  String.eqb s t ||
  match s with
  | EmptyString => false
  | String _ s' => endsWith s' t
  end.

(** [s.split(sep)] for a separator of one character. *)
Fixpoint split (sep : ascii) (s : string) : list string :=
  match s with
  | EmptyString => [EmptyString]
  | String c s' =>
      if Ascii.eqb c sep then EmptyString :: split sep s'
      else match split sep s' with
           | [] => [String c EmptyString]
           | piece :: pieces => String c piece :: pieces
           end
  end.

(** [parts.join(sep)] *)
Fixpoint join (sep : string) (parts : list string) : string :=
  match parts with
  | [] => EmptyString
  | [p] => p
  | p :: ps => p ++ sep ++ join sep ps
  end.

(** The character [c] occurs in [s]. *)
Fixpoint occurs (c : ascii) (s : string) : bool :=
  match s with
  | EmptyString => false
  | String d s' => Ascii.eqb d c || occurs c s'
  end.

(** The words of the specification: [t] is a substring of [s]. *)
Definition Contains (s t : string) : Prop :=
  exists a b, s = a ++ t ++ b.

Definition HasPrefix (s p : string) : Prop := exists b, s = p ++ b.

Definition HasSuffix (s t : string) : Prop := exists a, s = a ++ t.

End JsString.

Import JsString.

(** ** Platform classification, URL cleaning and the argument profile *)

(** [DownloadResult["platform"]] *)
Inductive Platform : Type := instagram | tiktok | unknown.

Definition Platform_eqb (p q : Platform) : bool :=
  match p, q with
  | instagram, instagram | tiktok, tiktok | unknown, unknown => true
  | _, _ => false
  end.

Definition detectPlatform (url : string) : Platform :=
  if includes url "tiktok.com" then tiktok
  else if includes url "instagram.com" then instagram
  else unknown.

(** Clean Instagram URL to remove tracking parameters. *)
Definition cleanInstagramUrl (url : string) : string :=
  if includes url "instagram.com" then hd "" (split "?" url) else url.

Definition MODERN_UA : string :=
  "Mozilla/5.0 (Windows NT 10.0; Win64; x64) AppleWebKit/537.36 (KHTML, like Gecko) Chrome/127.0 Safari/537.36".

(** ** JavaScript values, errors and results *)

(** A value thrown by JavaScript code. *)
Inductive JsError : Type :=
| Error (message : string)          (* [new Error(message)] *)
| TypeError (message : string)      (* raised by the language itself *)
| SystemError (code : string).      (* raised by the runtime: ENOENT, EACCES, ... *)

(** The outcome of an expression that may throw. *)
Inductive Result (A : Type) : Type :=
| Ok (a : A)
| Err (e : JsError).

Arguments Ok {A} a.
Arguments Err {A} e.

Definition rbind {A B : Type} (r : Result A) (f : A -> Result B) : Result B :=
  match r with
  | Ok a => f a
  | Err e => Err e
  end.

Declare Scope result_scope.
Delimit Scope result_scope with result.
Notation "'let?' x ':=' r 'in' k" := (rbind r (fun x => k))
  (at level 10, x name, r at level 100, k at level 200) : result_scope.

(** A number: JSON numbers are taken as exact rationals, and [NaN] is what
    arithmetic on something that is not a number gives. *)
Inductive JSNumber : Type :=
| NaN
| Num (q : Q).

(** A value of type [any], as [JSON.parse] builds it, with [undefined] for
    what a missing property reads as.  An object lists each of its keys
    once. *)
#[warnings="-register-all"]
Inductive JSValue : Type :=
| JUndefined
| JNull
| JBool (b : bool)
| JNum (q : Q)
| JStr (s : string)
| JArr (items : list JSValue)
| JObj (fields : list (string * JSValue)).

Module Js.

(** ToBoolean *)
Definition truthy (v : JSValue) : bool :=
  match v with
  | JUndefined | JNull => false
  | JBool b => b
  | JNum q => negb (Qeq_bool q 0)
  | JStr s => negb (String.eqb s "")
  | JArr _ | JObj _ => true
  end.

(** [a || b] *)
Definition or (a b : JSValue) : JSValue := if truthy a then a else b.

Fixpoint lookup (k : string) (fields : list (string * JSValue)) : JSValue :=
  match fields with
  | [] => JUndefined
  | (k', v) :: rest => if String.eqb k k' then v else lookup k rest
  end.

(** [v?.k], for the property names the service reads: none of them is
    defined on a prototype, so only an object's own keys answer. *)
Definition optMember (v : JSValue) (k : string) : JSValue :=
  match v with
  | JObj fields => lookup k fields
  | _ => JUndefined
  end.

(** [v.k]: reading a property of [undefined] or [null] throws. *)
Definition member (v : JSValue) (k : string) : Result JSValue :=
  match v with
  | JUndefined => Err (TypeError "Cannot read properties of undefined")
  | JNull => Err (TypeError "Cannot read properties of null")
  | _ => Ok (optMember v k)
  end.

(** [items[i]] *)
Definition at_ (items : list JSValue) (i : Z) : JSValue :=
  if (i <? 0)%Z then JUndefined else nth (Z.to_nat i) items JUndefined.

(** [v === s] for a string literal [s] *)
Definition strictEqStr (v : JSValue) (s : string) : bool :=
  match v with
  | JStr t => String.eqb t s
  | _ => false
  end.

(** [a - b] on numbers *)
Definition sub (a b : JSNumber) : JSNumber :=
  match a, b with
  | Num x, Num y => Num (x - y)
  | _, _ => NaN
  end.

(** [items.filter(p)] for a callback that may throw. *)
Fixpoint filterM (p : JSValue -> Result bool) (items : list JSValue)
  : Result (list JSValue) :=
  match items with
  | [] => Ok []
  | x :: rest =>
      (let? keep := p x in
       let? kept := filterM p rest in
       Ok (if keep then x :: kept else kept))%result
  end.

(** What [sort] does with the number its comparator returned for
    [(x, y)], [x] standing before [y]: [x] stays in front unless the
    number is positive ([NaN] counts as 0). *)
Definition staysInFront (c : JSNumber) : bool :=
  match c with
  | NaN => true
  | Num q => Qle_bool q 0
  end.

Fixpoint insertM (cmp : JSValue -> JSValue -> Result JSNumber)
    (x : JSValue) (sorted : list JSValue) : Result (list JSValue) :=
  match sorted with
  | [] => Ok [x]
  | y :: rest =>
      (let? c := cmp x y in
       if staysInFront c then Ok (x :: y :: rest)
       else let? placed := insertM cmp x rest in Ok (y :: placed))%result
  end.

(** [items.sort(cmp)]: the sort of the language is stable, so for a
    comparator that orders the items consistently its result is the one
    of any stable sort; here, insertion from the right.  A comparator
    that throws makes the sort throw.  When the comparator returns [NaN]
    or is otherwise no consistent order, the language leaves the order to
    the implementation and this function need not agree with it: what is
    proved of the order below is proved for entries with numeric
    bitrates. *)
Fixpoint sortM (cmp : JSValue -> JSValue -> Result JSNumber)
    (items : list JSValue) : Result (list JSValue) :=
  match items with
  | [] => Ok []
  | x :: rest => (let? sorted := sortM cmp rest in insertM cmp x sorted)%result
  end.

End Js.

(** What the service takes from the Node.js runtime and the language
    without defining it. *)
Class Runtime : Type := {
  (** [process.platform === "win32"] *)
  process_platform_win32 : bool;
  (** [process.env] *)
  process_env : list (string * string);
  (** [process.cwd()] *)
  process_cwd : string;
  path_join : list string -> string;
  path_resolve : list string -> string;
  path_relative : string -> string -> string;
  (** [JSON.parse]; [None] when it throws a SyntaxError. *)
  JSON_parse : string -> option JSValue;
  (** ToNumber on a string, and on an array or an object (which goes
      through ToPrimitive and may throw). *)
  StringToNumber : string -> JSNumber;
  ObjectToNumber : JSValue -> Result JSNumber;
}.

(** ToNumber *)
Definition ToNumber `{Runtime} (v : JSValue) : Result JSNumber :=
  match v with
  | JUndefined => Ok NaN
  | JNull => Ok (Num 0)
  | JBool b => Ok (Num (if b then 1 else 0))
  | JNum q => Ok (Num q)
  | JStr s => Ok (StringToNumber s)
  | JArr _ | JObj _ => ObjectToNumber v
  end.

(** ** Programs that talk to the environment *)

(** [process.env] and the environment handed to a child process. *)
Definition ProcessEnv : Type := list (string * string).

Fixpoint envGet (k : string) (env : ProcessEnv) : option string :=
  match env with
  | [] => None
  | (k', v) :: rest => if String.eqb k k' then Some v else envGet k rest
  end.

Fixpoint envSet (k v : string) (env : ProcessEnv) : ProcessEnv :=
  match env with
  | [] => [(k, v)]
  | (k', v') :: rest =>
      if String.eqb k k' then (k, v) :: rest else (k', v') :: envSet k v rest
  end.

(** How a child process ends, as the two listeners of [run] see it. *)
Inductive ChildOutcome : Type :=
| ChildError (e : JsError)
    (* 'error' fires: the process could not be launched *)
| ChildClose (code : option Z) (stdout stderr : string).
    (* 'close' fires with the exit code, [null] after a signal *)

(** The requests of the service to the outside, with the type of the
    answer. *)
Inductive Event : Type -> Type :=
| Spawn (command : string) (args : list string) (cwd : option string)
        (env : ProcessEnv) : Event ChildOutcome
| ReaddirSync (dir : string) : Event (Result (list string))
| RandomUUID : Event string
| DateToISOString : Event string.

Inductive Prog (A : Type) : Type :=
| Ret (a : A)
| Throw (e : JsError)
| Vis (X : Type) (ev : Event X) (k : X -> Prog A).

Arguments Ret {A} a.
Arguments Throw {A} e.
Arguments Vis {A X} ev k.

Fixpoint bind {A B : Type} (p : Prog A) (f : A -> Prog B) : Prog B :=
  match p with
  | Ret a => f a
  | Throw e => Throw e
  | Vis ev k => Vis ev (fun x => bind (k x) f)
  end.

(** [try { p } catch (e) { h e }] *)
Fixpoint tryCatch {A : Type} (p : Prog A) (h : JsError -> Prog A) : Prog A :=
  match p with
  | Ret a => Ret a
  | Throw e => h e
  | Vis ev k => Vis ev (fun x => tryCatch (k x) h)
  end.

Definition trigger {X : Type} (ev : Event X) : Prog X := Vis ev Ret.

Definition lift {A : Type} (r : Result A) : Prog A :=
  match r with
  | Ok a => Ret a
  | Err e => Throw e
  end.

Declare Scope prog_scope.
Delimit Scope prog_scope with prog.
Notation "x <- p ;; k" := (bind p (fun x => k))
  (at level 61, p at next level, right associativity) : prog_scope.
Notation "'await' p ;; k" := (bind p (fun _ => k))
  (at level 61, p at next level, right associativity) : prog_scope.

(** ** The service *)

(** What [run] resolves with. *)
Record Output : Type := { stdout : string; stderr : string }.

Record DownloadResult : Type := {
  id : string;
  platform : Platform;
  inputUrl : string;
  videoPath : string;
  filename : string;
  thumbnailUrl : JSValue;
  audioUrl : JSValue;
  audioPath : option string;
  title : JSValue;
  publishedAt : JSValue;
  createdAt : string;
}.

Definition newline : string := String (ascii_of_nat 10) EmptyString.

(** [`${code}`] for an exit code *)
Definition showCode (code : option Z) : string :=
  match code with
  | None => "null"
  | Some z => NilZero.string_of_int (Z.to_int z)
  end.

Section Service.

Context `{RT : Runtime}.

Definition getAugmentedEnv : ProcessEnv :=
  let env := process_env in
  match envGet "APPDATA" process_env with
  | Some appData =>
      if process_platform_win32 && negb (String.eqb appData "") then
        let scriptsDir := path_join [appData; "Python"; "Python312"; "Scripts"] in
        match envGet "PATH" env with
        | Some p =>
            if negb (String.eqb p "")
            then envSet "PATH" (scriptsDir ++ ";" ++ p) env
            else envSet "PATH" scriptsDir env
        | None => envSet "PATH" scriptsDir env
        end
      else env
  | None => env
  end.

Definition getPythonCommand : string :=
  if process_platform_win32
  then "C:\Users\aditp\AppData\Local\Microsoft\WindowsApps\python.exe"
  else "python".

Definition getFFmpegLocation : string :=
  if process_platform_win32
  then "C:\Users\aditp\AppData\Local\Microsoft\WinGet\Packages\Gyan.FFmpeg_Microsoft.Winget.Source_8wekyb3d8bbwe\ffmpeg-8.0-full_build\bin"
  else "".

(** The promise of [run]: it rejects with the launch error when 'error'
    fires, resolves when the child closes with code 0, and rejects with
    "Command failed" when it closes with anything else. *)
Definition run (command : string) (args : list string) (cwd : option string)
  : Prog Output :=
  Vis (Spawn command args cwd getAugmentedEnv) (fun child =>
    match child with
    | ChildError e => Throw e
    | ChildClose code out err =>
        match code with
        | Some 0%Z => Ret {| stdout := out; stderr := err |}
        | _ => Throw (Error ("Command failed (" ++ showCode code ++ "): "
                             ++ command ++ " " ++ join " " args
                             ++ newline ++ err))
        end
    end).

Definition runYtDlpRaw (args : list string) (cwd : option string)
  : Prog Output :=
  tryCatch (run "yt-dlp" args cwd)
    (fun _e =>
       let pythonCmd := getPythonCommand in
       run pythonCmd ("-m" :: "yt_dlp" :: args) cwd).

Definition buildCommonArgs (url : string) : list string :=
  let base := ["--geo-bypass"; "--user-agent"; MODERN_UA] in
  let ffmpegLocation := getFFmpegLocation in
  let base :=
    if negb (String.eqb ffmpegLocation "")
    then (base ++ ["--ffmpeg-location"; ffmpegLocation])%list
    else base in
  let base :=
    if includes url "tiktok.com"
    then (base ++ ["--extractor-args";
                   "tiktok:player_url=1,music_download=1,age_restricted=1,bypass_age_gate=1";
                   "--no-check-certificates";
                   "--ignore-errors"])%list
    else base in
  let base :=
    if includes url "instagram.com"
    then (base ++ ["--referer"; "https://www.instagram.com/";
                   "--extractor-args"; "instagram:api=1";
                   "--sleep-requests"; "3";
                   "--sleep-interval"; "3";
                   "--no-check-certificates";
                   "--ignore-errors";
                   "--extractor-retries"; "3"])%list
    else base in
  base.

Definition runYtDlpWithFallbacks (url : string) (args : list string)
    (cwd : option string) : Prog Output :=
  let common := buildCommonArgs url in
  runYtDlpRaw (common ++ args)%list cwd.

End Service.

(** *** The enrichment fields (lines 141-165 of the service) *)

Section Enrichment.

Context `{RT : Runtime}.

Import Js.

(** [Array.isArray(metadata?.thumbnails)
      ? metadata.thumbnails[metadata.thumbnails.length - 1]?.url
      : metadata?.thumbnail] *)
Definition selectThumbnailUrl (metadata : JSValue) : JSValue :=
  match optMember metadata "thumbnails" with
  | JArr thumbnails =>
      optMember (at_ thumbnails (Z.of_nat (List.length thumbnails) - 1)) "url"
  | _ => optMember metadata "thumbnail"
  end.

(** [(f) => f.acodec && f.vcodec === "none"], as [filter] reads it *)
Definition isAudioOnly (f : JSValue) : Result bool :=
  (let? acodec := member f "acodec" in
   if truthy acodec
   then let? vcodec := member f "vcodec" in Ok (strictEqStr vcodec "none")
   else Ok false)%result.

(** [f.abr || 0] *)
Definition abrOrZero (f : JSValue) : Result JSValue :=
  (let? abr := member f "abr" in Ok (or abr (JNum 0)))%result.

(** [(a, b) => (b.abr || 0) - (a.abr || 0)] *)
Definition byAbrDescending (a b : JSValue) : Result JSNumber :=
  (let? vb := abrOrZero b in
   let? va := abrOrZero a in
   let? nb := ToNumber vb in
   let? na := ToNumber va in
   Ok (sub nb na))%result.

(** The value of [audioUrl] after the block on [metadata?.formats]. *)
Definition selectFormatsAudioUrl (metadata : JSValue) : Result JSValue :=
  let formats := optMember metadata "formats" in
  if truthy formats then
    match formats with
    | JArr items =>
        (let? filtered := filterM isAudioOnly items in
         let? audioOnly := sortM byAbrDescending filtered in
         match audioOnly with
         | [] => Ok JUndefined
         | best :: _ => member best "url"
         end)%result
    | _ => Err (TypeError "metadata.formats.filter is not a function")
    end
  else Ok JUndefined.

(** [Array.isArray(v) ? v[0] : undefined] *)
Definition firstIfArray (v : JSValue) : JSValue :=
  match v with
  | JArr items => at_ items 0
  | _ => JUndefined
  end.

(** [(u) => typeof u === "string" && u.startsWith("http")] *)
Definition looksLikeUrl (u : JSValue) : bool :=
  match u with
  | JStr s => startsWith s "http"
  | _ => false
  end.

(** The value the music fallback assigns to [audioUrl]. *)
Definition selectMusicUrl (metadata : JSValue) : JSValue :=
  let music := or (or (optMember metadata "music") (optMember metadata "track"))
                  (optMember metadata "song") in
  let candidates :=
    [ optMember music "playUrl";
      optMember music "downloadUrl";
      optMember music "url";
      firstIfArray (optMember music "playUrl");
      firstIfArray (optMember music "downloadUrl");
      firstIfArray (optMember music "url") ] in
  match find looksLikeUrl candidates with
  | Some u => u
  | None => JUndefined
  end.

(** The value of [audioUrl] when the video fetch starts. *)
Definition selectAudioUrl (metadata : JSValue) (platform : Platform)
  : Result JSValue :=
  (let? audioUrl := selectFormatsAudioUrl metadata in
   if negb (truthy audioUrl) && Platform_eqb platform tiktok
   then Ok (selectMusicUrl metadata)
   else Ok audioUrl)%result.

End Enrichment.

(** *** The orchestrator *)

Section Orchestrator.

Context `{RT : Runtime}.

Import Js.

Definition downloadsDir : string := path_resolve [process_cwd; "downloads"].
Definition audiosDir : string := path_resolve [process_cwd; "audios"].

Definition probeArgs (cleanUrl : string) : list string :=
  ["-J"; "--no-playlist"; cleanUrl].

Definition videoArgs (outputTemplate cleanUrl : string) : list string :=
  ["-f"; "bv*+ba/best"; "--remux-video"; "mp4"; "-o"; outputTemplate; cleanUrl].

Definition audioArgs (audioTemplate cleanUrl : string) : list string :=
  ["-x"; "--audio-format"; "mp3"; "--audio-quality"; "0";
   "-o"; audioTemplate; cleanUrl].

(** [try { metadata = JSON.parse(jsonStdout); } catch { metadata = undefined; }] *)
Definition parseMetadata (jsonStdout : string) : JSValue :=
  match JSON_parse jsonStdout with
  | Some metadata => metadata
  | None => JUndefined
  end.

(** [fsMod.readdirSync(dir)] *)
Definition readdirSync (dir : string) : Prog (list string) :=
  (r <- trigger (ReaddirSync dir) ;; lift r)%prog.

(** [(f) => f.startsWith(id + "-audio") && f.endsWith(".mp3")] *)
Definition isAudioFileOf (id : string) (f : string) : bool :=
  startsWith f (id ++ "-audio") && endsWith f ".mp3".

Definition downloadVideoAndExtractAudio (url : string) : Prog DownloadResult :=
  (id <- trigger RandomUUID ;;
   let platform := detectPlatform url in
   let cleanUrl := cleanInstagramUrl url in
   let outputTemplate := path_join [downloadsDir; id ++ "-%(title)s.%(ext)s"] in
   probe <- runYtDlpWithFallbacks cleanUrl (probeArgs cleanUrl) None ;;
   let metadata := parseMetadata (stdout probe) in
   let title := optMember metadata "title" in
   let thumbnailUrl := selectThumbnailUrl metadata in
   let publishedAt := optMember metadata "upload_date" in
   audioUrl <- lift (selectAudioUrl metadata platform) ;;
   await runYtDlpWithFallbacks cleanUrl (videoArgs outputTemplate cleanUrl) None ;;
   listing <- readdirSync downloadsDir ;;
   let files := filter (fun f => startsWith f (id ++ "-")) listing in
   match files with
   | [] => Throw (Error "Downloaded file not found")
   | filename :: _ =>
       let videoPath := path_join [downloadsDir; filename] in
       let audioTemplate := path_join [audiosDir; id ++ "-audio.%(ext)s"] in
       await runYtDlpWithFallbacks cleanUrl (audioArgs audioTemplate cleanUrl) None ;;
       listing <- readdirSync audiosDir ;;
       let audioFile := find (isAudioFileOf id) listing in
       let audioPath :=
         match audioFile with
         | Some f =>
             if negb (String.eqb f "") then Some (path_join [audiosDir; f])
             else None
         | None => None
         end in
       createdAt <- trigger DateToISOString ;;
       Ret {| id := id;
              platform := platform;
              inputUrl := url;
              videoPath := path_relative process_cwd videoPath;
              filename := filename;
              thumbnailUrl := thumbnailUrl;
              audioUrl := audioUrl;
              audioPath :=
                match audioPath with
                | Some p =>
                    if negb (String.eqb p "")
                    then Some (path_relative process_cwd p) else None
                | None => None
                end;
              title := title;
              publishedAt := publishedAt;
              createdAt := createdAt |}
   end)%prog.

End Orchestrator.

(** ** Running a program *)

(** One request to the environment and the answer it got. *)
Inductive Call : Type :=
| Called (X : Type) (ev : Event X) (answer : X).

Arguments Called {X} ev answer.

(** The environment: it answers each request from the state of a world,
    which the request may change. *)
Class Environment (World : Type) : Type :=
  handle : forall X : Type, Event X -> World -> X * World.

(** A finished run: how the program ended, the world it left, and the calls
    it made, in order. *)
Record Run (World A : Type) : Type := {
  outcome : Result A;
  final : World;
  calls : list Call;
}.

Fixpoint exec {World : Type} `{Environment World} {A : Type}
    (p : Prog A) (w : World) : Run World A :=
  match p with
  | Ret a => {| outcome := Ok a; final := w; calls := [] |}
  | Throw e => {| outcome := Err e; final := w; calls := [] |}
  | Vis ev k =>
      let (x, w') := handle ev w in
      let r := exec (k x) w' in
      {| outcome := outcome r; final := final r;
         calls := Called ev x :: calls r |}
  end.

(** The child processes a run launched: command and arguments. *)
Fixpoint spawned (cs : list Call) : list (string * list string) :=
  match cs with
  | [] => []
  | Called ev _ :: rest =>
      match ev with
      | Spawn command args _ _ => (command, args) :: spawned rest
      | _ => spawned rest
      end
  end.

(** Every child process a program can launch, whatever the environment
    answers, satisfies [Q]. *)
Fixpoint everySpawn {A : Type} (Q : string -> list string -> Prop)
    (p : Prog A) : Prop :=
  match p with
  | Ret _ | Throw _ => True
  | Vis ev k =>
      match ev with
      | Spawn command args _ _ => Q command args
      | _ => True
      end /\ forall x, everySpawn Q (k x)
  end.

(** *** The steps of one orchestration run

    The state machine of the orchestrator, read off a run that starts in
    world [w0]: what each step was answered and the world it left. *)

Section Steps.

Context `{RT : Runtime} {World : Type} `{Environment World}.

Variable url : string.
Variable w0 : World.

(** [randomUUID()] *)
Definition requestId : string := fst (handle RandomUUID w0).

Definition outputTemplateOf (id : string) : string :=
  path_join [downloadsDir; id ++ "-%(title)s.%(ext)s"].

Definition audioTemplateOf (id : string) : string :=
  path_join [audiosDir; id ++ "-audio.%(ext)s"].

(** Probing *)
Definition probeStep : Run World Output :=
  exec (runYtDlpWithFallbacks (cleanInstagramUrl url)
          (probeArgs (cleanInstagramUrl url)) None)
       (snd (handle RandomUUID w0)).

(** Downloading Video *)
Definition videoStep : Run World Output :=
  exec (runYtDlpWithFallbacks (cleanInstagramUrl url)
          (videoArgs (outputTemplateOf requestId) (cleanInstagramUrl url)) None)
       (final probeStep).

(** Resolving Video File: the listing of the downloads directory *)
Definition downloadsListing : Result (list string) * World :=
  handle (ReaddirSync downloadsDir) (final videoStep).

(** Extracting Audio *)
Definition audioStep : Run World Output :=
  exec (runYtDlpWithFallbacks (cleanInstagramUrl url)
          (audioArgs (audioTemplateOf requestId) (cleanInstagramUrl url)) None)
       (snd downloadsListing).

(** Resolving Audio File: the listing of the audios directory *)
Definition audiosListing : Result (list string) * World :=
  handle (ReaddirSync audiosDir) (final audioStep).

End Steps.

(** How the launch of a child process ended. *)
Definition launchFailed (c : ChildOutcome) : bool :=
  match c with
  | ChildError _ => true
  | ChildClose _ _ _ => false
  end.

Definition exitedWithZero (c : ChildOutcome) : bool :=
  match c with
  | ChildClose (Some 0%Z) _ _ => true
  | _ => false
  end.

(** The child was launched and closed with anything but exit code 0: a
    non-zero code, or [null] after a signal. *)
Definition exitedNonZero (c : ChildOutcome) : bool :=
  negb (launchFailed c) && negb (exitedWithZero c).

(** A launch of the extractor on [cleanUrl]: the executable, or the
    interpreter with the module, then the common arguments of [cleanUrl],
    the arguments of the step, and [cleanUrl] last. *)
Definition extractorLaunch `{RT : Runtime} (cleanUrl : string)
    (command : string) (args : list string) : Prop :=
  exists stepArgs,
    (command = "yt-dlp" /\
     args = (buildCommonArgs cleanUrl ++ stepArgs ++ [cleanUrl])%list) \/
    (command = getPythonCommand /\
     args = ("-m" :: "yt_dlp" :: buildCommonArgs cleanUrl
               ++ stepArgs ++ [cleanUrl])%list).

(** *** The argument profile in the words of the specification

    A base set, the flags of the short-form-video platform on top when the
    request was classified as that platform, the flags of the
    photo/reel-sharing platform when it was classified as that one. *)

Definition platformProfile `{RT : Runtime} (p : Platform) : list string :=
  (["--geo-bypass"; "--user-agent"; MODERN_UA]
   ++ (if String.eqb getFFmpegLocation "" then []
       else ["--ffmpeg-location"; getFFmpegLocation])
   ++ match p with
      | tiktok =>
          ["--extractor-args";
           "tiktok:player_url=1,music_download=1,age_restricted=1,bypass_age_gate=1";
           "--no-check-certificates"; "--ignore-errors"]
      | instagram =>
          ["--referer"; "https://www.instagram.com/";
           "--extractor-args"; "instagram:api=1";
           "--sleep-requests"; "3"; "--sleep-interval"; "3";
           "--no-check-certificates"; "--ignore-errors";
           "--extractor-retries"; "3"]
      | unknown => []
      end)%list.

(** *** The best audio-only entry in the words of the specification *)

(** The bitrate an entry competes with: its [abr], 0 without one. *)
Definition bitrateIs `{RT : Runtime} (f : JSValue) (q : Q) : Prop :=
  abrOrZero f = Ok (JNum q).

Definition hasBitrate `{RT : Runtime} (f : JSValue) : Prop :=
  exists q, bitrateIs f q.

(** The entry declares an audio codec and no video codec, as the filter
    of the service decides it. *)
Definition declaresAudioOnly `{RT : Runtime} (f : JSValue) : bool :=
  match isAudioOnly f with
  | Ok b => b
  | Err _ => false
  end.

(** An entry whose properties can be read. *)
Definition readable (f : JSValue) : Prop := f <> JUndefined /\ f <> JNull.

(** [a] may stand before [b] in the order of descending bitrate. *)
Definition outranks `{RT : Runtime} (a b : JSValue) : Prop :=
  exists qa qb, bitrateIs a qa /\ bitrateIs b qb /\ (qb <= qa)%Q.

(** [best] stands in [entries] with a bitrate that every entry before it
    stays below and no entry after it exceeds. *)
Definition FirstHighestBitrate `{RT : Runtime}
    (entries : list JSValue) (best : JSValue) : Prop :=
  exists before after qb,
    entries = (before ++ best :: after)%list /\
    bitrateIs best qb /\
    Forall (fun f => exists q, bitrateIs f q /\ (q < qb)%Q) before /\
    Forall (fun f => exists q, bitrateIs f q /\ (q <= qb)%Q) after.

(** ** A concrete runtime and scripted worlds

    A POSIX runtime with simplified path functions and a parser that knows
    one JSON text and rejects what is not JSON, and an environment that
    answers from a script: the outcomes of the child processes and the
    directory listings in the order they are asked for. *)

Module Sample.

Definition sampleUuid : string := "3f2a".

Definition tiktokUrl : string := "https://www.tiktok.com/@user/video/123".

(** A reel with a tracking parameter. *)
Definition reelUrl : string :=
  "https://www.instagram.com/reel/Cabc/?igsh=MzRlODBiNWFlZA==".

(** A reel whose query string mentions the other platform. *)
Definition mixedUrl : string :=
  "https://www.instagram.com/reel/Cabc/?igsh=tiktok.com".

(** Turns each apostrophe of [s] into a double quote. *)
Fixpoint doubleQuoted (s : string) : string :=
  match s with
  | EmptyString => EmptyString
  | String c rest =>
      String (if Ascii.eqb c "'" then ascii_of_nat 34 else c) (doubleQuoted rest)
  end.

(** What the probe prints for a clip with two thumbnails and three
    audio-only formats. *)
Definition probeStdout : string :=
  doubleQuoted
    ("{'title':'clip',"
     ++ "'thumbnails':[{'url':'https://t/1.jpg'},{'url':'https://t/2.jpg'}],"
     ++ "'formats':["
     ++ "{'acodec':'mp4a.40.2','vcodec':'none','abr':64,'url':'https://a/64'},"
     ++ "{'acodec':'mp4a.40.2','vcodec':'none','abr':128,'url':'https://a/128'},"
     ++ "{'acodec':'mp4a.40.2','vcodec':'none','abr':96,'url':'https://a/96'}]}").

Definition entry (abr : Q) (u : string) : JSValue :=
  JObj [("acodec", JStr "mp4a.40.2"); ("vcodec", JStr "none");
        ("abr", JNum abr); ("url", JStr u)].

Definition formatsMetadata : JSValue :=
  JObj [("title", JStr "clip");
        ("thumbnails", JArr [JObj [("url", JStr "https://t/1.jpg")];
                             JObj [("url", JStr "https://t/2.jpg")]]);
        ("formats", JArr [entry 64 "https://a/64"; entry 128 "https://a/128";
                          entry 96 "https://a/96"])].

Definition relativeTo (from to : string) : string :=
  if startsWith to (from ++ "/")
  then substring (S (String.length from)) (String.length to) to
  else to.

#[export] Instance posix : Runtime := {|
  process_platform_win32 := false;
  process_env := [("PATH", "/usr/bin")];
  process_cwd := "/app";
  path_join := join "/";
  path_resolve := join "/";
  path_relative := relativeTo;
  JSON_parse := fun s =>
    if String.eqb s probeStdout then Some formatsMetadata else None;
  StringToNumber := fun _ => NaN;
  ObjectToNumber := fun _ => Ok NaN;
|}.

Record Script : Type := {
  children : list ChildOutcome;
  listings : list (Result (list string));
}.

#[export] Instance scripted : Environment Script :=
  fun X ev =>
    match ev in Event X return Script -> X * Script with
    | Spawn _ _ _ _ => fun w =>
        match children w with
        | [] => (ChildError (SystemError "ENOENT"), w)
        | c :: cs => (c, {| children := cs; listings := listings w |})
        end
    | ReaddirSync _ => fun w =>
        match listings w with
        | [] => (Err (SystemError "ENOENT"), w)
        | l :: ls => (l, {| children := children w; listings := ls |})
        end
    | RandomUUID => fun w => (sampleUuid, w)
    | DateToISOString => fun w => ("2025-01-01T00:00:00.000Z", w)
    end.

Definition exited0 (out : string) : ChildOutcome := ChildClose (Some 0%Z) out "".

(** Every child exits with 0; the probe prints [out]; the directories
    hold [downloads] and [audios]. *)
Definition smooth (out : string) (downloads audios : list string) : Script :=
  {| children := [exited0 out; exited0 ""; exited0 ""];
     listings := [Ok downloads; Ok audios] |}.

(** The executable runs and exits with 1; the interpreter then succeeds. *)
Definition exitsNonZero : Script :=
  {| children := [ChildClose (Some 1%Z) "" "ERROR: unavailable"; exited0 "{}"];
     listings := [] |}.

(** The executable is not installed; the interpreter then succeeds. *)
Definition notInstalled : Script :=
  {| children := [ChildError (SystemError "ENOENT"); exited0 "{}"];
     listings := [] |}.

End Sample.

(** ** The error mapping of the download route

    The catch block of the POST /download handler in [routes/download.ts]:
    the message of the thrown value decides the status code, the error type
    and the message for the user.  The message is [Some m] for a thrown
    error whose message is the string [m], and [None] for a thrown value
    other than [null] and [undefined] that has no message; for a thrown
    [null] or [undefined] the block itself throws when it reads the message,
    a case that is not part of this function. *)

Record ErrorResponse : Type := {
  statusCode : Z;
  errorType : string;
  userMessage : string;
}.

(** [error.message?.includes(t)], as a condition *)
Definition messageIncludes (message : option string) (t : string) : bool :=
  match message with
  | Some m => includes m t
  | None => false
  end.

Definition categorizeError (message : option string) : ErrorResponse :=
  if messageIncludes message "yt-dlp" || messageIncludes message "yt_dlp" then
    {| statusCode := 422;
       errorType := "ExtractionError";
       userMessage := "Video extraction failed. The content may be private, unavailable, or the platform may be blocking access." |}
  else if messageIncludes message "network" || messageIncludes message "connection"
          || messageIncludes message "timeout" then
    {| statusCode := 503;
       errorType := "NetworkError";
       userMessage := "Network error occurred. Please check your connection and try again." |}
  else if messageIncludes message "not found" || messageIncludes message "404" then
    {| statusCode := 404;
       errorType := "NotFoundError";
       userMessage := "The requested content could not be found. Please verify the URL is correct and accessible." |}
  else if messageIncludes message "permission" || messageIncludes message "access" then
    {| statusCode := 403;
       errorType := "AccessError";
       userMessage := "Access denied. The content may be private or require authentication." |}
  else
    {| statusCode := 500;
       errorType := "DownloadError";
       userMessage := "Failed to process download request" |}.

(** The flags [buildCommonArgs] pushes in each of its two branches. *)
Definition tiktokFlags : list string :=
  ["--extractor-args";
   "tiktok:player_url=1,music_download=1,age_restricted=1,bypass_age_gate=1";
   "--no-check-certificates"; "--ignore-errors"].

Definition instagramFlags : list string :=
  ["--referer"; "https://www.instagram.com/";
   "--extractor-args"; "instagram:api=1";
   "--sleep-requests"; "3"; "--sleep-interval"; "3";
   "--no-check-certificates"; "--ignore-errors";
   "--extractor-retries"; "3"].

(** The answers to the two launches of one invocation of the extractor
    that starts in world [w]. *)
Section Tiers.

Context `{RT : Runtime} {World : Type} `{Environment World}.

Variable args : list string.
Variable cwd : option string.
Variable w : World.

Definition executableAnswer : ChildOutcome * World :=
  handle (Spawn "yt-dlp" args cwd getAugmentedEnv) w.

Definition interpreterAnswer : ChildOutcome * World :=
  handle (Spawn getPythonCommand ("-m" :: "yt_dlp" :: args) cwd getAugmentedEnv)
         (snd executableAnswer).

End Tiers.

(** ** More scripted worlds and a Windows runtime *)

Module Scenario.

Import Sample.

Definition exited1 (err : string) : ChildOutcome := ChildClose (Some 1%Z) "" err.

(** Neither the executable nor the interpreter gets the probe through. *)
Definition probeFails : Script :=
  {| children := [exited1 "ERROR: HTTP Error 404: Not Found";
                  exited1 "ERROR: HTTP Error 404: Not Found"];
     listings := [] |}.

(** Probe and video fetch go through, the audio extraction fails in both
    tiers. *)
Definition audioFails : Script :=
  {| children := [exited0 probeStdout; exited0 "";
                  exited1 "ERROR: ffmpeg not found";
                  exited1 "ERROR: ffmpeg not found"];
     listings := [Ok ["3f2a-clip.mp4"]] |}.

(** The downloads directory cannot be read. *)
Definition downloadsUnreadable : Script :=
  {| children := [exited0 probeStdout; exited0 ""];
     listings := [Err (SystemError "ENOENT")] |}.

(** What the probe prints when the formats are not a list. *)
Definition oddStdout : string := doubleQuoted "{'formats':'none'}".

Definition oddMetadata : JSValue := JObj [("formats", JStr "none")].

(** A clip without formats, with music metadata. *)
Definition musicStdout : string :=
  doubleQuoted
    ("{'music':{'title':'tune','playUrl':['https://m/play.mp3']},"
     ++ "'track':{'url':'https://m/track.mp3'}}").

Definition musicMetadata : JSValue :=
  JObj [("music", JObj [("title", JStr "tune");
                        ("playUrl", JArr [JStr "https://m/play.mp3"])]);
        ("track", JObj [("url", JStr "https://m/track.mp3")])].

Definition parseSample (s : string) : option JSValue :=
  if String.eqb s probeStdout then Some formatsMetadata
  else if String.eqb s oddStdout then Some oddMetadata
  else if String.eqb s musicStdout then Some musicMetadata
  else None.

(** The POSIX runtime with a parser that knows the three sample texts. *)
Definition posix3 : Runtime := {|
  process_platform_win32 := false;
  process_env := [("PATH", "/usr/bin")];
  process_cwd := "/app";
  path_join := join "/";
  path_resolve := join "/";
  path_relative := relativeTo;
  JSON_parse := parseSample;
  StringToNumber := fun _ => NaN;
  ObjectToNumber := fun _ => Ok NaN;
|}.

Definition backslash : string := String (ascii_of_nat 92) EmptyString.

(** A Windows host with a user-level Python. *)
Definition windows : Runtime := {|
  process_platform_win32 := true;
  process_env := [("APPDATA", "C:\Users\u\AppData\Roaming");
                  ("PATH", "C:\Windows"); ("TEMP", "C:\Temp")];
  process_cwd := "C:\app";
  path_join := join backslash;
  path_resolve := join backslash;
  path_relative := fun _ to => to;
  JSON_parse := parseSample;
  StringToNumber := fun _ => NaN;
  ObjectToNumber := fun _ => Ok NaN;
|}.

End Scenario.

(** ** The formats of the extractor, in the words of the specification

    The extractor describes each format by an object: the audio codec and
    the video codec as text, with "none" for a stream that is not there;
    the audio bitrate as a number; the address of the stream.  A field may
    be missing or null. *)

(** What an object holds under a key: the value of its first binding of
    the key, [undefined] without one. *)
Inductive Holds : list (string * JSValue) -> string -> JSValue -> Prop :=
| Holds_nothing (k : string) : Holds [] k JUndefined
| Holds_first (k : string) (v : JSValue) (rest : list (string * JSValue)) :
    Holds ((k, v) :: rest) k v
| Holds_further (k k' : string) (v v' : JSValue) (rest : list (string * JSValue)) :
    k <> k' -> Holds rest k v -> Holds ((k', v') :: rest) k v.

Record Format : Type := {
  fmt_acodec : option string;
  fmt_vcodec : option string;
  fmt_abr : option Q;
  fmt_url : JSValue;
}.

Definition holdsNothing (fields : list (string * JSValue)) (k : string) : Prop :=
  Holds fields k JUndefined \/ Holds fields k JNull.

Definition holdsText (fields : list (string * JSValue)) (k : string)
    (t : option string) : Prop :=
  match t with
  | Some s => Holds fields k (JStr s)
  | None => holdsNothing fields k
  end.

Definition holdsNumber (fields : list (string * JSValue)) (k : string)
    (n : option Q) : Prop :=
  match n with
  | Some q => Holds fields k (JNum q)
  | None => holdsNothing fields k
  end.

(** The value [f] is a format object that says what [e] says. *)
Definition Represents (f : JSValue) (e : Format) : Prop :=
  exists fields,
    f = JObj fields /\
    holdsText fields "acodec" (fmt_acodec e) /\
    holdsText fields "vcodec" (fmt_vcodec e) /\
    holdsNumber fields "abr" (fmt_abr e) /\
    Holds fields "url" (fmt_url e).

(** The format declares an audio codec: it names one, and "none" is no
    name. *)
Definition declaresAudioCodec (e : Format) : bool :=
  match fmt_acodec e with
  | Some c => negb (String.eqb c "") && negb (String.eqb c "none")
  | None => false
  end.

(** The format declares that it has no video codec. *)
Definition declaresNoVideoCodec (e : Format) : bool :=
  match fmt_vcodec e with
  | Some c => String.eqb c "none"
  | None => false
  end.

Definition audioOnlyFormat (e : Format) : bool :=
  declaresAudioCodec e && declaresNoVideoCodec e.

(** The format declares no codec at all, as the entry of a storyboard
    does. *)
Definition declaresNoCodec (e : Format) : Prop :=
  fmt_acodec e = Some "none" /\ fmt_vcodec e = Some "none".

(** The bitrate of a format, 0 when it gives none. *)
Definition bitrateOf (e : Format) : Q :=
  match fmt_abr e with
  | Some q => q
  | None => 0
  end.

(** [best] is the audio-only format of highest bitrate in [formats], the
    first one in the order of the list if several share that bitrate. *)
Definition HighestBitrateFirst (formats : list Format) (best : Format) : Prop :=
  exists before after,
    formats = (before ++ best :: after)%list /\
    audioOnlyFormat best = true /\
    Forall (fun e => audioOnlyFormat e = true -> (bitrateOf e < bitrateOf best)%Q)
      before /\
    Forall (fun e => audioOnlyFormat e = true -> (bitrateOf e <= bitrateOf best)%Q)
      after.

(** Sample formats. *)
Module Formats.

Import Sample.

Definition audio (abr : Q) (u : string) : Format :=
  {| fmt_acodec := Some "mp4a.40.2"; fmt_vcodec := Some "none";
     fmt_abr := Some abr; fmt_url := JStr u |}.

(** A storyboard, and an audio stream that gives no bitrate. *)
Definition storyboard : Format :=
  {| fmt_acodec := Some "none"; fmt_vcodec := Some "none";
     fmt_abr := None; fmt_url := JStr "https://sb/0" |}.

Definition plainAudio : Format :=
  {| fmt_acodec := Some "mp4a.40.2"; fmt_vcodec := Some "none";
     fmt_abr := None; fmt_url := JStr "https://a/1" |}.

Definition storyboardEntry : JSValue :=
  JObj [("format_id", JStr "sb0"); ("acodec", JStr "none");
        ("vcodec", JStr "none"); ("url", JStr "https://sb/0")].

Definition plainAudioEntry : JSValue :=
  JObj [("format_id", JStr "audio"); ("acodec", JStr "mp4a.40.2");
        ("vcodec", JStr "none"); ("url", JStr "https://a/1")].

(** Metadata whose formats list ends with a null entry. *)
Definition withNullEntry : JSValue :=
  JObj [("formats", JArr [entry 128 "https://a/128"; JNull])].

(** Metadata whose formats list starts with a storyboard, followed by one
    audio stream that gives no bitrate. *)
Definition withStoryboard : JSValue :=
  JObj [("formats", JArr [storyboardEntry; plainAudioEntry])].

End Formats.

(** * Properties *)

(** ** Strings *)

Section StringFacts.

Lemma append_nil_r (s : string) : s ++ "" = s.
Proof. induction s as [|c s IH]; simpl; [reflexivity | now rewrite IH]. Qed.

Lemma append_assoc (a b c : string) : (a ++ b) ++ c = a ++ b ++ c.
Proof. induction a as [|x a IH]; simpl; [reflexivity | now rewrite IH]. Qed.

Lemma startsWith_spec (s p : string) :
  startsWith s p = true <-> HasPrefix s p.
Proof.
  revert s; induction p as [|c p IH]; intros s; simpl.
  - split; [intros _; now exists s | reflexivity].
  - destruct s as [|d s].
    + split; [discriminate | intros [b Hb]; discriminate].
    + rewrite andb_true_iff, Ascii.eqb_eq, IH. split.
      * intros [-> [b ->]]. now exists b.
      * intros [b Hb]. simpl in Hb. injection Hb as -> ->.
        split; [reflexivity | now exists b].
Qed.

Lemma includes_spec (s t : string) :
  includes s t = true <-> Contains s t.
Proof.
  induction s as [|c s IH]; simpl.
  - rewrite orb_false_r, startsWith_spec. split.
    + intros [b Hb]. now exists "", b.
    + intros [a [b Hab]]. destruct a; simpl in Hab.
      * now exists b.
      * discriminate.
  - rewrite orb_true_iff, IH, startsWith_spec. split.
    + intros [[b Hb] | [a [b Hab]]].
      * now exists "", b.
      * exists (String c a), b. simpl. now rewrite Hab.
    + intros [a [b Hab]]. destruct a as [|d a]; simpl in Hab.
      * left. now exists b.
      * right. injection Hab as _ ->. now exists a, b.
Qed.

Lemma includes_false (s t : string) :
  includes s t = false <-> ~ Contains s t.
Proof.
  rewrite <- includes_spec. destruct (includes s t); split; intros H.
  - discriminate.
  - now contradiction H.
  - discriminate.
  - reflexivity.
Qed.

Lemma endsWith_spec (s t : string) :
  endsWith s t = true <-> HasSuffix s t.
Proof.
  induction s as [|c s IH]; cbn [endsWith].
  - rewrite orb_false_r, String.eqb_eq. split.
    + intros <-. now exists "".
    + intros [a Ha]. destruct a; simpl in Ha; [assumption | discriminate].
  - rewrite orb_true_iff, IH, String.eqb_eq. split.
    + intros [<- | [a ->]].
      * now exists "".
      * now exists (String c a).
    + intros [a Ha]. destruct a as [|d a]; simpl in Ha.
      * now left.
      * right. injection Ha as _ ->. now exists a.
Qed.

Lemma split_not_nil (sep : ascii) (s : string) : split sep s <> [].
Proof.
  destruct s as [|c s]; simpl; [discriminate |].
  destruct (Ascii.eqb c sep); [discriminate |].
  destruct (split sep s); discriminate.
Qed.

(** The first piece of a split is the text before the first separator. *)
Lemma split_head_cut (sep : ascii) (a b : string) :
  occurs sep a = false ->
  hd "" (split sep (a ++ String sep b)) = a.
Proof.
  induction a as [|c a IH]; simpl; intros Hocc.
  - now rewrite Ascii.eqb_refl.
  - apply orb_false_elim in Hocc as [Hc Ha]. rewrite Hc.
    specialize (IH Ha).
    destruct (split sep (a ++ String sep b)) as [|p ps] eqn:E.
    + now destruct (split_not_nil _ _ E).
    + simpl in *. now rewrite IH.
Qed.

Lemma split_head_whole (sep : ascii) (s : string) :
  occurs sep s = false -> hd "" (split sep s) = s.
Proof.
  induction s as [|c s IH]; simpl; intros Hocc; [reflexivity |].
  apply orb_false_elim in Hocc as [Hc Hs]. rewrite Hc.
  specialize (IH Hs).
  destruct (split sep s) as [|p ps] eqn:E.
  - now destruct (split_not_nil _ _ E).
  - simpl in *. now rewrite IH.
Qed.

(** The first piece is a prefix of the string and holds no separator. *)
Lemma split_head_prefix (sep : ascii) (s : string) :
  HasPrefix s (hd "" (split sep s)) /\
  occurs sep (hd "" (split sep s)) = false.
Proof.
  induction s as [|c s [[b Hb] Hocc]]; simpl.
  - split; [now exists "" | reflexivity].
  - destruct (Ascii.eqb c sep) eqn:Hc; simpl.
    + split; [now exists (String c s) | reflexivity].
    + destruct (split sep s) as [|p ps] eqn:E.
      * now destruct (split_not_nil _ _ E).
      * simpl in *. split.
        -- exists b. simpl. now f_equal.
        -- now rewrite Hc, Hocc.
Qed.

Lemma Contains_prefix (s p t : string) :
  HasPrefix s p -> Contains p t -> Contains s t.
Proof.
  intros [b ->] [x [y ->]]. exists x, (y ++ b).
  now rewrite !append_assoc.
Qed.

End StringFacts.

(** ** Running programs *)

Section ExecFacts.

Context {World : Type} `{Environment World}.

Lemma exec_bind {A B : Type} (p : Prog A) (f : A -> Prog B) (w : World) :
  exec (bind p f) w =
  match outcome (exec p w) with
  | Ok a =>
      let r := exec (f a) (final (exec p w)) in
      {| outcome := outcome r; final := final r;
         calls := (calls (exec p w) ++ calls r)%list |}
  | Err e =>
      {| outcome := Err e; final := final (exec p w);
         calls := calls (exec p w) |}
  end.
Proof.
  revert w. induction p as [a | e | X ev k IH]; intros w; simpl.
  - now destruct (exec (f a) w).
  - reflexivity.
  - destruct (handle ev w) as [x w']. simpl. rewrite IH.
    now destruct (outcome (exec (k x) w')).
Qed.

Lemma exec_tryCatch {A : Type} (p : Prog A) (h : JsError -> Prog A) (w : World) :
  exec (tryCatch p h) w =
  match outcome (exec p w) with
  | Ok a =>
      {| outcome := Ok a; final := final (exec p w);
         calls := calls (exec p w) |}
  | Err e =>
      let r := exec (h e) (final (exec p w)) in
      {| outcome := outcome r; final := final r;
         calls := (calls (exec p w) ++ calls r)%list |}
  end.
Proof.
  revert w. induction p as [a | e | X ev k IH]; intros w; simpl.
  - reflexivity.
  - now destruct (exec (h e) w).
  - destruct (handle ev w) as [x w']. simpl. rewrite IH.
    now destruct (outcome (exec (k x) w')).
Qed.

Lemma exec_trigger {X : Type} (ev : Event X) (w : World) :
  exec (trigger ev) w =
  {| outcome := Ok (fst (handle ev w)); final := snd (handle ev w);
     calls := [Called ev (fst (handle ev w))] |}.
Proof. unfold trigger. simpl. now destruct (handle ev w). Qed.

Lemma exec_lift {A : Type} (r : Result A) (w : World) :
  exec (lift r) w = {| outcome := r; final := w; calls := [] |}.
Proof. now destruct r. Qed.

Lemma exec_readdirSync (dir : string) (w : World) :
  exec (readdirSync dir) w =
  {| outcome := fst (handle (ReaddirSync dir) w);
     final := snd (handle (ReaddirSync dir) w);
     calls := [Called (ReaddirSync dir) (fst (handle (ReaddirSync dir) w))] |}.
Proof.
  unfold readdirSync. rewrite exec_bind, exec_trigger. simpl.
  rewrite exec_lift. simpl. now destruct (fst (handle (ReaddirSync dir) w)).
Qed.

Lemma spawned_app (cs ds : list Call) :
  spawned (cs ++ ds) = (spawned cs ++ spawned ds)%list.
Proof.
  induction cs as [|[X ev x] cs IH]; simpl; [reflexivity |].
  destruct ev; simpl; now rewrite IH.
Qed.

(** What holds of every launch a program can make holds of the launches
    of each of its runs. *)
Lemma everySpawn_exec {A : Type} (Q : string -> list string -> Prop)
    (p : Prog A) (w : World) :
  everySpawn Q p ->
  Forall (fun c => Q (fst c) (snd c)) (spawned (calls (exec p w))).
Proof.
  revert w. induction p as [a | e | X ev k IH]; intros w HQ; simpl.
  - constructor.
  - constructor.
  - destruct HQ as [Hev Hk]. destruct (handle ev w) as [x w']. simpl.
    specialize (IH x w' (Hk x)).
    destruct ev; simpl; auto.
Qed.

End ExecFacts.

Lemma everySpawn_bind {A B : Type} (Q : string -> list string -> Prop)
    (p : Prog A) (f : A -> Prog B) :
  everySpawn Q p -> (forall a, everySpawn Q (f a)) -> everySpawn Q (bind p f).
Proof.
  intros Hp Hf. induction p as [a | e | X ev k IH]; simpl in *.
  - apply Hf.
  - exact I.
  - destruct Hp as [Hev Hk]. split; [exact Hev |].
    intros x. apply IH, Hk.
Qed.

Lemma everySpawn_tryCatch {A : Type} (Q : string -> list string -> Prop)
    (p : Prog A) (h : JsError -> Prog A) :
  everySpawn Q p -> (forall e, everySpawn Q (h e)) -> everySpawn Q (tryCatch p h).
Proof.
  intros Hp Hh. induction p as [a | e | X ev k IH]; simpl in *.
  - exact I.
  - apply Hh.
  - destruct Hp as [Hev Hk]. split; [exact Hev |].
    intros x. apply IH, Hk.
Qed.

Lemma everySpawn_lift {A : Type} (Q : string -> list string -> Prop)
    (r : Result A) : everySpawn Q (lift r).
Proof. now destruct r. Qed.

Lemma everySpawn_run `{RT : Runtime} (Q : string -> list string -> Prop)
    (command : string) (args : list string) (cwd : option string) :
  Q command args -> everySpawn Q (run command args cwd).
Proof.
  intros HQ. simpl. split; [exact HQ |].
  intros [e | [[| |] |] out err]; exact I.
Qed.

(** ** The Extractor Invoker *)

Section InvokerFacts.

Context `{RT : Runtime} {World : Type} `{Environment World}.

Lemma exec_run (command : string) (args : list string) (cwd : option string)
    (w : World) :
  let answer := handle (Spawn command args cwd getAugmentedEnv) w in
  calls (exec (run command args cwd) w)
    = [Called (Spawn command args cwd getAugmentedEnv) (fst answer)] /\
  final (exec (run command args cwd) w) = snd answer /\
  outcome (exec (run command args cwd) w) =
    match fst answer with
    | ChildError e => Err e
    | ChildClose code out err =>
        if exitedWithZero (fst answer)
        then Ok {| stdout := out; stderr := err |}
        else Err (Error ("Command failed (" ++ showCode code ++ "): "
                         ++ command ++ " " ++ join " " args ++ newline ++ err))
    end.
Proof.
  unfold run. simpl.
  destruct (handle (Spawn command args cwd getAugmentedEnv) w) as [c w'].
  destruct c as [e | [[| z | z] |] out err]; simpl; auto.
Qed.

Lemma run_ok_iff (command : string) (args : list string) (cwd : option string)
    (w : World) :
  (exists o, outcome (exec (run command args cwd) w) = Ok o) <->
  exitedWithZero (fst (handle (Spawn command args cwd getAugmentedEnv) w)) = true.
Proof.
  destruct (exec_run command args cwd w) as (_ & _ & ->).
  destruct (fst (handle (Spawn command args cwd getAugmentedEnv) w))
    as [e | [[| z | z] |] out err]; simpl; split;
    try discriminate; try reflexivity; try (intros [o Ho]; discriminate);
    intros _; eexists; reflexivity.
Qed.

(** C7, as amended: the standalone executable is launched first; whenever
    that first run rejects, be it because the launch failed or because the
    executable ran and closed with anything but exit code 0, the interpreter
    is launched with the module and the same arguments, and its outcome is
    the outcome of the invocation.  Only exit code 0 keeps the fallback
    away. *)
Theorem runYtDlpRaw_falls_back_on_every_rejection
    (args : list string) (cwd : option string) (w : World) :
  let first := handle (Spawn "yt-dlp" args cwd getAugmentedEnv) w in
  let r := exec (runYtDlpRaw args cwd) w in
  (exitedWithZero (fst first) = true ->
     spawned (calls r) = [("yt-dlp", args)] /\
     exists out err, fst first = ChildClose (Some 0%Z) out err /\
                     outcome r = Ok {| stdout := out; stderr := err |}) /\
  (launchFailed (fst first) = true \/ exitedNonZero (fst first) = true ->
     spawned (calls r) =
       [("yt-dlp", args); (getPythonCommand, "-m" :: "yt_dlp" :: args)] /\
     outcome r =
       outcome (exec (run getPythonCommand ("-m" :: "yt_dlp" :: args) cwd)
                     (snd first))).
Proof.
  intros first r. subst r. unfold runYtDlpRaw. rewrite exec_tryCatch.
  destruct (exec_run "yt-dlp" args cwd w) as (Hc & Hf & Ho).
  fold first in Hc, Hf, Ho. rewrite Hc, Hf, Ho. clear Hc Hf Ho.
  destruct (exec_run getPythonCommand ("-m" :: "yt_dlp" :: args) cwd (snd first))
    as (Hc2 & _ & _).
  split.
  - intros Hz.
    destruct (fst first) as [e | [[| z | z] |] out err]; try discriminate.
    simpl. split; [reflexivity |]. now exists out, err.
  - intros Hrej.
    destruct (fst first) as [e | [[| z | z] |] out err]; simpl in *;
      try (destruct Hrej; discriminate);
      rewrite Hc2; simpl; split; reflexivity.
Qed.

End InvokerFacts.

(** ** The orchestrator *)

Lemma filter_none {A : Type} (p : A -> bool) (l : list A) :
  (forall x, In x l -> p x = false) -> filter p l = [].
Proof.
  induction l as [|x l IH]; simpl; intros Hp; [reflexivity |].
  rewrite (Hp x (or_introl eq_refl)). apply IH. intros y Hy. apply Hp. now right.
Qed.

Lemma filter_some {A : Type} (p : A -> bool) (l : list A) (x : A) :
  In x l -> p x = true -> exists y rest, filter p l = y :: rest.
Proof.
  intros Hin Hp. assert (Hf : In x (filter p l)) by (apply filter_In; auto).
  destruct (filter p l) as [|y rest]; [destruct Hf | now exists y, rest].
Qed.

Lemma find_nothing {A : Type} (p : A -> bool) (l : list A) :
  (forall x, In x l -> p x = false) -> find p l = None.
Proof.
  induction l as [|x l IH]; simpl; intros Hp; [reflexivity |].
  rewrite (Hp x (or_introl eq_refl)). apply IH. intros y Hy. apply Hp. now right.
Qed.

Lemma selectAudioUrl_undefined `{RT : Runtime} (p : Platform) :
  selectAudioUrl JUndefined p = Ok JUndefined.
Proof. now destruct p. Qed.

Section OrchestratorFacts.

Context `{RT : Runtime} {World : Type} `{Environment World}.

Lemma runYtDlpRaw_first_launch (args : list string) (cwd : option string)
    (w : World) :
  exists rest,
    spawned (calls (exec (runYtDlpRaw args cwd) w)) = ("yt-dlp", args) :: rest.
Proof.
  unfold runYtDlpRaw. rewrite exec_tryCatch.
  destruct (exec_run "yt-dlp" args cwd w) as (Hc & _ & _).
  destruct (outcome (exec (run "yt-dlp" args cwd) w)); cbn [calls].
  - rewrite Hc. now exists [].
  - rewrite spawned_app, Hc. simpl. eexists. reflexivity.
Qed.

Lemma everySpawn_runYtDlpWithFallbacks (cleanUrl : string)
    (stepArgs : list string) (cwd : option string) :
  everySpawn (extractorLaunch cleanUrl)
    (runYtDlpWithFallbacks cleanUrl (stepArgs ++ [cleanUrl])%list cwd).
Proof.
  unfold runYtDlpWithFallbacks, runYtDlpRaw.
  apply everySpawn_tryCatch; [| intros _]; apply everySpawn_run;
    exists stepArgs; [left | right]; split; reflexivity.
Qed.

(** Every child process of the orchestrator is a launch of the extractor
    on the cleaned URL. *)
Lemma download_launches (url : string) :
  everySpawn (extractorLaunch (cleanInstagramUrl url))
    (downloadVideoAndExtractAudio url).
Proof.
  unfold downloadVideoAndExtractAudio.
  apply everySpawn_bind; [simpl; auto |]. intros id.
  apply everySpawn_bind.
  { apply (everySpawn_runYtDlpWithFallbacks _ ["-J"; "--no-playlist"]). }
  intros probe. apply everySpawn_bind; [apply everySpawn_lift |]. intros selected.
  apply everySpawn_bind.
  { apply (everySpawn_runYtDlpWithFallbacks _
             ["-f"; "bv*+ba/best"; "--remux-video"; "mp4"; "-o"; _]). }
  intros _. apply everySpawn_bind.
  { unfold readdirSync. apply everySpawn_bind; [simpl; auto |].
    intros r. apply everySpawn_lift. }
  intros listing. destruct (filter _ listing) as [|name rest]; [exact I |].
  apply everySpawn_bind.
  { apply (everySpawn_runYtDlpWithFallbacks _
             ["-x"; "--audio-format"; "mp3"; "--audio-quality"; "0"; "-o"; _]). }
  intros _. apply everySpawn_bind.
  { unfold readdirSync. apply everySpawn_bind; [simpl; auto |].
    intros r. apply everySpawn_lift. }
  intros audios. apply everySpawn_bind; simpl; auto.
Qed.

(** The calls of a run whose probe went through: the identifier, the
    probe, the video fetch, then the rest. *)
Lemma download_calls_reach_video (url : string) (w0 : World)
    (probe : Output) (selected : JSValue) :
  outcome (probeStep url w0) = Ok probe ->
  selectAudioUrl (parseMetadata (stdout probe)) (detectPlatform url) = Ok selected ->
  exists rest,
    calls (exec (downloadVideoAndExtractAudio url) w0) =
    (Called RandomUUID (requestId w0)
       :: calls (probeStep url w0) ++ calls (videoStep url w0) ++ rest)%list.
Proof.
  intros Hprobe Hsel. unfold downloadVideoAndExtractAudio.
  rewrite exec_bind, exec_trigger. cbn [outcome final calls].
  rewrite exec_bind. fold (requestId w0).
  change (exec _ (snd (handle RandomUUID w0))) with (probeStep url w0).
  rewrite Hprobe. cbn [outcome final calls].
  rewrite exec_bind, exec_lift. cbn [outcome final calls]. rewrite Hsel.
  cbn [outcome final calls].
  rewrite exec_bind.
  change (exec _ (final (probeStep url w0))) with (videoStep url w0).
  destruct (outcome (videoStep url w0)); cbn [calls app].
  - eexists. reflexivity.
  - exists []. now rewrite app_nil_r.
Qed.

(** The record a run assembles once every step went through. *)
Lemma download_outcome (url : string) (w0 : World) :
  outcome (exec (downloadVideoAndExtractAudio url) w0) =
  match outcome (probeStep url w0) with
  | Err e => Err e
  | Ok probe =>
  match selectAudioUrl (parseMetadata (stdout probe)) (detectPlatform url) with
  | Err e => Err e
  | Ok selected =>
  match outcome (videoStep url w0) with
  | Err e => Err e
  | Ok _ =>
  match fst (downloadsListing url w0) with
  | Err e => Err e
  | Ok listing =>
  match filter (fun f => startsWith f (requestId w0 ++ "-")) listing with
  | [] => Err (Error "Downloaded file not found")
  | name :: _ =>
  match outcome (audioStep url w0) with
  | Err e => Err e
  | Ok _ =>
  match fst (audiosListing url w0) with
  | Err e => Err e
  | Ok audios =>
      Ok {| id := requestId w0;
            platform := detectPlatform url;
            inputUrl := url;
            videoPath := path_relative process_cwd (path_join [downloadsDir; name]);
            filename := name;
            thumbnailUrl := selectThumbnailUrl (parseMetadata (stdout probe));
            audioUrl := selected;
            audioPath :=
              match find (isAudioFileOf (requestId w0)) audios with
              | Some f =>
                  if negb (String.eqb f "") then
                    if negb (String.eqb (path_join [audiosDir; f]) "")
                    then Some (path_relative process_cwd (path_join [audiosDir; f]))
                    else None
                  else None
              | None => None
              end;
            title := Js.optMember (parseMetadata (stdout probe)) "title";
            publishedAt := Js.optMember (parseMetadata (stdout probe)) "upload_date";
            createdAt := fst (handle DateToISOString (snd (audiosListing url w0))) |}
  end end end end end end end.
Proof.
  unfold downloadVideoAndExtractAudio.
  rewrite exec_bind, exec_trigger. cbn [outcome final calls].
  rewrite exec_bind. fold (requestId w0).
  change (exec _ (snd (handle RandomUUID w0))) with (probeStep url w0).
  destruct (outcome (probeStep url w0)) as [probe | e]; [| reflexivity].
  cbn [outcome final calls].
  rewrite exec_bind, exec_lift. cbn [outcome final calls].
  destruct (selectAudioUrl _ _) as [selected | e]; [| reflexivity].
  cbn [outcome final calls].
  rewrite exec_bind.
  change (exec _ (final (probeStep url w0))) with (videoStep url w0).
  destruct (outcome (videoStep url w0)) as [video | e]; [| reflexivity].
  cbn [outcome final calls].
  rewrite exec_bind, exec_readdirSync. cbn [outcome final calls].
  fold (downloadsListing url w0).
  destruct (fst (downloadsListing url w0)) as [listing | e]; [| reflexivity].
  cbn [outcome final calls].
  destruct (filter _ listing) as [| name rest]; [reflexivity |].
  rewrite exec_bind.
  change (exec _ (snd (downloadsListing url w0))) with (audioStep url w0).
  destruct (outcome (audioStep url w0)) as [audio | e]; [| reflexivity].
  cbn [outcome final calls].
  rewrite exec_bind, exec_readdirSync. cbn [outcome final calls].
  fold (audiosListing url w0).
  destruct (fst (audiosListing url w0)) as [audios | e]; [| reflexivity].
  cbn [outcome final calls].
  rewrite exec_bind, exec_trigger. cbn [outcome final calls exec].
  destruct (find (isAudioFileOf (requestId w0)) audios) as [f |]; [| reflexivity].
  destruct (negb (String.eqb f "")); reflexivity.
Qed.

(** C1: when the probe and the video fetch went through and the listing
    of the downloads directory, read after the video fetch, holds no name
    that begins with the identifier of the request followed by a dash, the
    orchestrator throws "Downloaded file not found": the request fails and
    no record is returned. *)
Theorem missing_video_file_fails_the_request
    (url : string) (w0 : World) (probe video : Output) (selected : JSValue)
    (listing : list string) :
  outcome (probeStep url w0) = Ok probe ->
  selectAudioUrl (parseMetadata (stdout probe)) (detectPlatform url) = Ok selected ->
  outcome (videoStep url w0) = Ok video ->
  fst (downloadsListing url w0) = Ok listing ->
  (forall f, In f listing -> ~ HasPrefix f (requestId w0 ++ "-")) ->
  outcome (exec (downloadVideoAndExtractAudio url) w0)
    = Err (Error "Downloaded file not found").
Proof.
  intros Hprobe Hsel Hvideo Hlist Hnone.
  rewrite download_outcome, Hprobe, Hsel, Hvideo, Hlist.
  rewrite filter_none; [reflexivity |].
  intros f Hf. specialize (Hnone f Hf). rewrite <- startsWith_spec in Hnone.
  now destruct (startsWith f (requestId w0 ++ "-")).
Qed.

(** C2: when the video steps went through (probe, video fetch, a file of
    the request found) and the audio extraction ran, but the listing of the
    audios directory holds no name that starts with the identifier followed
    by "-audio" and ends with ".mp3", the orchestrator still returns a
    record, and its audioPath is unset. *)
Theorem missing_audio_file_is_tolerated
    (url : string) (w0 : World) (probe video audio : Output)
    (selected : JSValue) (listing audios : list string) (name : string) :
  outcome (probeStep url w0) = Ok probe ->
  selectAudioUrl (parseMetadata (stdout probe)) (detectPlatform url) = Ok selected ->
  outcome (videoStep url w0) = Ok video ->
  fst (downloadsListing url w0) = Ok listing ->
  In name listing -> HasPrefix name (requestId w0 ++ "-") ->
  outcome (audioStep url w0) = Ok audio ->
  fst (audiosListing url w0) = Ok audios ->
  (forall f, In f audios ->
     ~ (HasPrefix f (requestId w0 ++ "-audio") /\ HasSuffix f ".mp3")) ->
  exists r,
    outcome (exec (downloadVideoAndExtractAudio url) w0) = Ok r /\
    audioPath r = None.
Proof.
  intros Hprobe Hsel Hvideo Hlist Hin Hpre Haudio Haudios Hnone.
  rewrite download_outcome, Hprobe, Hsel, Hvideo, Hlist.
  apply startsWith_spec in Hpre.
  destruct (filter_some (fun f => startsWith f (requestId w0 ++ "-")) _ _ Hin Hpre)
    as (first & rest & ->).
  rewrite Haudio, Haudios. eexists. split; [reflexivity |]. simpl.
  rewrite find_nothing; [reflexivity |].
  intros f Hf. specialize (Hnone f Hf). unfold isAudioFileOf.
  rewrite <- startsWith_spec, <- endsWith_spec in Hnone.
  destruct (startsWith f (requestId w0 ++ "-audio")), (endsWith f ".mp3");
    try reflexivity.
  now destruct Hnone.
Qed.

(** C3: when the probe went through but its stdout does not parse as
    JSON, the run does not stop there: the video fetch is launched, any
    record the run returns has title, thumbnailUrl, publishedAt and audioUrl
    unset, and the run does return a record as soon as the remaining steps
    go through. *)
Theorem unparseable_probe_output_is_tolerated
    (url : string) (w0 : World) (probe : Output) :
  outcome (probeStep url w0) = Ok probe ->
  JSON_parse (stdout probe) = None ->
  In ("yt-dlp",
      (buildCommonArgs (cleanInstagramUrl url)
         ++ videoArgs (outputTemplateOf (requestId w0)) (cleanInstagramUrl url))%list)
     (spawned (calls (exec (downloadVideoAndExtractAudio url) w0))) /\
  (forall r, outcome (exec (downloadVideoAndExtractAudio url) w0) = Ok r ->
     title r = JUndefined /\ thumbnailUrl r = JUndefined /\
     publishedAt r = JUndefined /\ audioUrl r = JUndefined) /\
  (forall video audio listing audios name,
     outcome (videoStep url w0) = Ok video ->
     fst (downloadsListing url w0) = Ok listing ->
     In name listing -> HasPrefix name (requestId w0 ++ "-") ->
     outcome (audioStep url w0) = Ok audio ->
     fst (audiosListing url w0) = Ok audios ->
     exists r, outcome (exec (downloadVideoAndExtractAudio url) w0) = Ok r).
Proof.
  intros Hprobe Hparse.
  assert (Hmeta : parseMetadata (stdout probe) = JUndefined)
    by (unfold parseMetadata; now rewrite Hparse).
  assert (Hsel : selectAudioUrl (parseMetadata (stdout probe)) (detectPlatform url)
                 = Ok JUndefined)
    by (rewrite Hmeta; apply selectAudioUrl_undefined).
  split; [| split].
  - destruct (download_calls_reach_video url w0 Hprobe Hsel) as [rest ->].
    cbn [spawned]. rewrite !spawned_app.
    apply in_or_app. right. apply in_or_app. left.
    unfold videoStep, runYtDlpWithFallbacks.
    destruct (runYtDlpRaw_first_launch
                (buildCommonArgs (cleanInstagramUrl url)
                   ++ videoArgs (outputTemplateOf (requestId w0))
                        (cleanInstagramUrl url))%list None
                (final (probeStep url w0))) as [more ->].
    now left.
  - intros r. rewrite download_outcome, Hprobe, Hsel, Hmeta.
    destruct (outcome (videoStep url w0)); [| discriminate].
    destruct (fst (downloadsListing url w0)); [| discriminate].
    destruct (filter _ _); [discriminate |].
    destruct (outcome (audioStep url w0)); [| discriminate].
    destruct (fst (audiosListing url w0)); [| discriminate].
    intros [= <-]. repeat split.
  - intros video audio listing audios name Hvideo Hlist Hin Hpre Haudio Haudios.
    rewrite download_outcome, Hprobe, Hsel, Hvideo, Hlist.
    apply startsWith_spec in Hpre.
    destruct (filter_some (fun f => startsWith f (requestId w0 ++ "-")) _ _ Hin Hpre)
      as (first & rest & ->).
    rewrite Haudio, Haudios. eexists. reflexivity.
Qed.

End OrchestratorFacts.

(** ** URL cleaning and the classification of a request *)

Lemma cleanInstagramUrl_prefix (url : string) :
  HasPrefix url (cleanInstagramUrl url).
Proof.
  unfold cleanInstagramUrl. destruct (includes url "instagram.com").
  - apply split_head_prefix.
  - exists "". now rewrite append_nil_r.
Qed.

Lemma extractorLaunch_last `{RT : Runtime} (cleanUrl command : string)
    (args : list string) :
  extractorLaunch cleanUrl command args -> last args "" = cleanUrl.
Proof.
  intros [stepArgs [[_ ->] | [_ ->]]].
  - rewrite app_assoc. apply last_last.
  - rewrite !app_comm_cons, app_assoc. apply last_last.
Qed.

Lemma extractorLaunch_common `{RT : Runtime} (cleanUrl command : string)
    (args : list string) :
  extractorLaunch cleanUrl command args ->
  exists front back, args = (front ++ buildCommonArgs cleanUrl ++ back)%list.
Proof.
  intros [stepArgs [[_ ->] | [_ ->]]].
  - now exists [], (stepArgs ++ [cleanUrl])%list.
  - now exists ["-m"; "yt_dlp"], (stepArgs ++ [cleanUrl])%list.
Qed.

Section RequestFacts.

Context `{RT : Runtime} {World : Type} `{Environment World}.

(** What a returned record takes from the request and from the probe. *)
Lemma download_result_fields (url : string) (w0 : World) (r : DownloadResult) :
  outcome (exec (downloadVideoAndExtractAudio url) w0) = Ok r ->
  exists probe,
    outcome (probeStep url w0) = Ok probe /\
    id r = requestId w0 /\
    inputUrl r = url /\
    platform r = detectPlatform url /\
    title r = Js.optMember (parseMetadata (stdout probe)) "title" /\
    publishedAt r = Js.optMember (parseMetadata (stdout probe)) "upload_date" /\
    thumbnailUrl r = selectThumbnailUrl (parseMetadata (stdout probe)) /\
    selectAudioUrl (parseMetadata (stdout probe)) (detectPlatform url)
      = Ok (audioUrl r).
Proof.
  rewrite download_outcome.
  destruct (outcome (probeStep url w0)) as [probe |]; [| discriminate].
  destruct (selectAudioUrl _ _) as [selected |] eqn:Hsel; [| discriminate].
  destruct (outcome (videoStep url w0)); [| discriminate].
  destruct (fst (downloadsListing url w0)); [| discriminate].
  destruct (filter _ _); [discriminate |].
  destruct (outcome (audioStep url w0)); [| discriminate].
  destruct (fst (audiosListing url w0)); [| discriminate].
  intros [= <-]. exists probe. cbn [id inputUrl platform title publishedAt
    thumbnailUrl audioUrl]. repeat split; try reflexivity. exact Hsel.
Qed.

(** C8: the record a run returns carries the submitted URL unchanged in
    inputUrl, while every launch of the extractor is handed the cleaned URL
    as its URL argument: for a URL containing "instagram.com" that is the
    submitted URL cut before its first question mark (the whole URL when it
    has none), for any other URL the submitted URL itself. *)
Theorem inputUrl_is_verbatim_and_extractor_gets_clean_url
    (url : string) (w0 : World) :
  (forall r, outcome (exec (downloadVideoAndExtractAudio url) w0) = Ok r ->
     inputUrl r = url) /\
  Forall (fun launch => last (snd launch) "" = cleanInstagramUrl url)
    (spawned (calls (exec (downloadVideoAndExtractAudio url) w0))) /\
  (Contains url "instagram.com" ->
     (forall a b, url = a ++ "?" ++ b -> occurs "?" a = false ->
        cleanInstagramUrl url = a) /\
     (occurs "?" url = false -> cleanInstagramUrl url = url)) /\
  (~ Contains url "instagram.com" -> cleanInstagramUrl url = url).
Proof.
  split; [| split; [| split]].
  - intros r Hr. now destruct (download_result_fields _ _ Hr) as (? & ? & ? & ? & ?).
  - eapply Forall_impl; [| apply everySpawn_exec, download_launches].
    intros [command args]. apply extractorLaunch_last.
  - intros Hig. apply includes_spec in Hig.
    unfold cleanInstagramUrl. rewrite Hig. split.
    + intros a b -> Ha. now apply split_head_cut.
    + apply split_head_whole.
  - intros Hno. apply includes_false in Hno.
    unfold cleanInstagramUrl. now rewrite Hno.
Qed.

(** C9, as amended: [detectPlatform] is evaluated on the submitted URL
    and that value is the platform of the record and the guard of the music
    fallback.  Argument construction does not take it over: every launch
    carries [buildCommonArgs] of the cleaned URL, which tests that URL for
    the two domains again, each on its own.  The arguments it builds are the
    profile of the classification whenever the submitted URL does not
    contain "instagram.com", or does not contain "tiktok.com" and keeps
    "instagram.com" in its cleaned form. *)
Theorem platform_reuse_and_argument_profile (url : string) (w0 : World) :
  (forall r, outcome (exec (downloadVideoAndExtractAudio url) w0) = Ok r ->
     platform r = detectPlatform url /\
     exists probe,
       outcome (probeStep url w0) = Ok probe /\
       selectAudioUrl (parseMetadata (stdout probe)) (platform r)
         = Ok (audioUrl r)) /\
  Forall (fun launch =>
            exists front back,
              snd launch =
              (front ++ buildCommonArgs (cleanInstagramUrl url) ++ back)%list)
    (spawned (calls (exec (downloadVideoAndExtractAudio url) w0))) /\
  (~ Contains url "instagram.com" \/
   (~ Contains url "tiktok.com" /\
    Contains (cleanInstagramUrl url) "instagram.com") ->
   buildCommonArgs (cleanInstagramUrl url) = platformProfile (detectPlatform url)).
Proof.
  split; [| split].
  - intros r Hr.
    destruct (download_result_fields _ _ Hr)
      as (probe & Hp & _ & _ & Hpl & _ & _ & _ & Hsel).
    split; [exact Hpl |]. exists probe. split; [exact Hp |]. now rewrite Hpl.
  - eapply Forall_impl; [| apply everySpawn_exec, download_launches].
    intros [command args]. apply extractorLaunch_common.
  - intros [Hno | [Hnt Hig]].
    + apply includes_false in Hno.
      unfold cleanInstagramUrl, buildCommonArgs, platformProfile, detectPlatform.
      rewrite !Hno.
      destruct (includes url "tiktok.com"), (String.eqb getFFmpegLocation "");
        reflexivity.
    + assert (Hct : includes (cleanInstagramUrl url) "tiktok.com" = false).
      { apply includes_false. intros Hc. apply Hnt.
        eapply Contains_prefix; [apply cleanInstagramUrl_prefix | exact Hc]. }
      assert (Hui : includes url "instagram.com" = true).
      { apply includes_spec.
        eapply Contains_prefix; [apply cleanInstagramUrl_prefix | exact Hig]. }
      apply includes_false in Hnt. apply includes_spec in Hig.
      unfold buildCommonArgs, platformProfile, detectPlatform.
      rewrite Hct, Hig, Hnt, Hui.
      destruct (String.eqb getFFmpegLocation ""); reflexivity.
Qed.

End RequestFacts.

(** ** Platform detection *)

(** C4, as amended: the classification is a function of the URL string
    alone; a URL that contains "tiktok.com" is tiktok, a URL that contains
    "instagram.com" and does not contain "tiktok.com" is instagram, and a URL
    that contains neither is unknown. *)
Theorem detectPlatform_by_substring (url : string) :
  (Contains url "tiktok.com" -> detectPlatform url = tiktok) /\
  (Contains url "instagram.com" -> ~ Contains url "tiktok.com" ->
     detectPlatform url = instagram) /\
  (~ Contains url "tiktok.com" -> ~ Contains url "instagram.com" ->
     detectPlatform url = unknown).
Proof.
  unfold detectPlatform. repeat split.
  - intros Ht. apply includes_spec in Ht. now rewrite Ht.
  - intros Hi Ht. apply includes_spec in Hi. apply includes_false in Ht.
    now rewrite Ht, Hi.
  - intros Ht Hi. apply includes_false in Ht, Hi. now rewrite Ht, Hi.
Qed.

(** C10: the test for "tiktok.com" comes first, so a URL that contains
    both "tiktok.com" and "instagram.com" is classified tiktok, not
    instagram. *)
Theorem detectPlatform_tiktok_wins (url : string) :
  Contains url "tiktok.com" -> Contains url "instagram.com" ->
  detectPlatform url = tiktok /\ detectPlatform url <> instagram.
Proof.
  intros Ht _. apply includes_spec in Ht. unfold detectPlatform. rewrite Ht.
  split; [reflexivity | discriminate].
Qed.

(** ** The enrichment fields *)

Section EnrichmentFacts.

Context `{RT : Runtime}.

Import Js.

Lemma filterM_filter (p : JSValue -> Result bool) (items : list JSValue) :
  Forall (fun f => exists b, p f = Ok b) items ->
  filterM p items
  = Ok (filter (fun f => match p f with Ok b => b | Err _ => false end) items).
Proof.
  induction 1 as [| f items [b Hb] _ IH]; simpl; [reflexivity |].
  rewrite Hb, IH. simpl. now destruct b.
Qed.

Lemma isAudioOnly_readable (f : JSValue) :
  readable f -> exists b, isAudioOnly f = Ok b.
Proof.
  intros [Hu Hn]. unfold isAudioOnly.
  destruct f; try (now contradiction); simpl; try (now eexists).
  destruct (truthy (lookup "acodec" fields)); now eexists.
Qed.

Lemma declaresAudioOnly_member (f : JSValue) (k : string) :
  declaresAudioOnly f = true -> member f k = Ok (optMember f k).
Proof.
  unfold declaresAudioOnly, isAudioOnly. destruct f; simpl; try discriminate;
    reflexivity.
Qed.

Lemma byAbrDescending_bitrates (a b : JSValue) (qa qb : Q) :
  bitrateIs a qa -> bitrateIs b qb ->
  byAbrDescending a b = Ok (Num (qb - qa)).
Proof.
  unfold bitrateIs, byAbrDescending. intros -> ->. reflexivity.
Qed.

Lemma bitrateIs_functional (f : JSValue) (q q' : Q) :
  bitrateIs f q -> bitrateIs f q' -> q = q'.
Proof. unfold bitrateIs. intros -> [= ->]. reflexivity. Qed.

(** Insertion keeps whatever holds of the inserted entry and of the list. *)
Lemma insertM_Forall (P : JSValue -> Prop) (x : JSValue)
    (sorted placed : list JSValue) :
  insertM byAbrDescending x sorted = Ok placed ->
  P x -> Forall P sorted -> Forall P placed.
Proof.
  revert placed. induction sorted as [| y rest IH]; simpl; intros placed Hins Hx Hs.
  - injection Hins as <-. now constructor.
  - destruct (byAbrDescending x y) as [c |]; simpl in Hins; [| discriminate].
    destruct (staysInFront c).
    + injection Hins as <-. now constructor.
    + destruct (insertM byAbrDescending x rest) as [placed' |]; simpl in Hins;
        [| discriminate].
      injection Hins as <-. inversion Hs; subst.
      constructor; [assumption |]. now apply IH.
Qed.

Lemma insertM_total (x : JSValue) (sorted : list JSValue) :
  hasBitrate x -> Forall hasBitrate sorted ->
  exists placed, insertM byAbrDescending x sorted = Ok placed.
Proof.
  intros [qx Hx]. induction 1 as [| y rest [qy Hy] _ [placed IH]]; simpl.
  - now eexists.
  - rewrite (byAbrDescending_bitrates Hx Hy). simpl.
    destruct (Qle_bool (qy - qx) 0); [now eexists |].
    rewrite IH. simpl. now eexists.
Qed.

Lemma sortM_Forall (P : JSValue -> Prop) (items sorted : list JSValue) :
  sortM byAbrDescending items = Ok sorted -> Forall P items -> Forall P sorted.
Proof.
  revert sorted. induction items as [| x rest IH]; simpl; intros sorted Hs HP.
  - injection Hs as <-. constructor.
  - destruct (sortM byAbrDescending rest) as [s |]; simpl in Hs; [| discriminate].
    inversion HP; subst. eapply insertM_Forall; eauto.
Qed.

Lemma sortM_total (items : list JSValue) :
  Forall hasBitrate items ->
  exists sorted, sortM byAbrDescending items = Ok sorted.
Proof.
  induction 1 as [| x rest Hx Hrest [s Hs]]; simpl; [now eexists |].
  rewrite Hs. simpl. apply insertM_total; [assumption |].
  eapply sortM_Forall; eauto.
Qed.

(** The first of the entries with the highest bitrate heads the sorted
    list. *)
Lemma sortM_head (entries : list JSValue) (best : JSValue) :
  FirstHighestBitrate entries best ->
  exists rest, sortM byAbrDescending entries = Ok (best :: rest).
Proof.
  intros (before & after & qb & -> & Hb & Hbefore & Hafter).
  induction Hbefore as [| x before [qx [Hx Hlt]] Hbefore IH]; simpl.
  - assert (Hnum : Forall hasBitrate after).
    { eapply Forall_impl; [| exact Hafter]. intros f [q [Hq _]]. now exists q. }
    destruct (sortM_total Hnum) as [s Hs]. rewrite Hs. simpl.
    pose proof (sortM_Forall Hs Hafter) as Hle.
    destruct s as [| y s]; simpl; [now eexists |].
    inversion Hle as [| ? ? [qy [Hy Hyle]] _]; subst.
    rewrite (byAbrDescending_bitrates Hb Hy). simpl.
    assert (Hin : Qle_bool (qy - qb) 0 = true) by (apply Qle_bool_iff; lra).
    rewrite Hin. now eexists.
  - destruct IH as [rest Hrest]. rewrite Hrest. simpl.
    rewrite (byAbrDescending_bitrates Hx Hb). simpl.
    assert (Hout : Qle_bool (qb - qx) 0 = false).
    { destruct (Qle_bool (qb - qx) 0) eqn:E; [| reflexivity].
      apply Qle_bool_iff in E. lra. }
    rewrite Hout.
    assert (Hnum : Forall hasBitrate (before ++ best :: after)).
    { apply Forall_app. split.
      - eapply Forall_impl; [| exact Hbefore]. intros f [q [Hq _]]. now exists q.
      - constructor; [now exists qb |].
        eapply Forall_impl; [| exact Hafter]. intros f [q [Hq _]]. now exists q. }
    pose proof (sortM_Forall Hrest Hnum) as Hsorted.
    inversion Hsorted; subst.
    destruct (@insertM_total x rest) as [placed ->];
      [now exists qx | assumption |].
    simpl. now eexists.
Qed.

(** The model of [sort] is a sort: on entries with bitrates it returns a
    rearrangement of them in descending order of bitrate. *)
Lemma insertM_permutation (x : JSValue) (sorted placed : list JSValue) :
  insertM byAbrDescending x sorted = Ok placed -> Permutation (x :: sorted) placed.
Proof.
  revert placed. induction sorted as [| y rest IH]; simpl; intros placed Hins.
  - injection Hins as <-. apply Permutation_refl.
  - destruct (byAbrDescending x y) as [c |]; simpl in Hins; [| discriminate].
    destruct (staysInFront c).
    + injection Hins as <-. apply Permutation_refl.
    + destruct (insertM byAbrDescending x rest) as [placed' |]; simpl in Hins;
        [| discriminate].
      injection Hins as <-.
      eapply Permutation_trans; [apply perm_swap |].
      apply perm_skip. now apply IH.
Qed.

Lemma sortM_permutation (items sorted : list JSValue) :
  sortM byAbrDescending items = Ok sorted -> Permutation items sorted.
Proof.
  revert sorted. induction items as [| x rest IH]; simpl; intros sorted Hs.
  - injection Hs as <-. apply Permutation_refl.
  - destruct (sortM byAbrDescending rest) as [s |]; simpl in Hs; [| discriminate].
    eapply Permutation_trans; [apply perm_skip, IH; reflexivity |].
    now apply insertM_permutation.
Qed.

Lemma outranks_trans (a b c : JSValue) :
  outranks a b -> outranks b c -> outranks a c.
Proof.
  intros (qa & qb & Ha & Hb & Hab) (qb' & qc & Hb' & Hc & Hbc).
  rewrite (bitrateIs_functional Hb' Hb) in Hbc.
  exists qa, qc. repeat split; try assumption. lra.
Qed.

Lemma insertM_sorted (x : JSValue) (sorted placed : list JSValue) :
  hasBitrate x -> Forall hasBitrate sorted ->
  StronglySorted outranks sorted ->
  insertM byAbrDescending x sorted = Ok placed ->
  StronglySorted outranks placed.
Proof.
  intros [qx Hx] Hnum Hsorted. revert placed.
  induction Hsorted as [| y rest Hrest IH Hy]; simpl; intros placed Hins.
  - injection Hins as <-. repeat constructor.
  - inversion Hnum as [| ? ? [qy Hqy] Hnum']; subst.
    rewrite (byAbrDescending_bitrates Hx Hqy) in Hins. simpl in Hins.
    destruct (Qle_bool (qy - qx) 0) eqn:E.
    + injection Hins as <-. apply Qle_bool_iff in E.
      assert (Hxy : outranks x y) by (exists qx, qy; repeat split; auto; lra).
      constructor; [now constructor |].
      constructor; [assumption |].
      eapply Forall_impl; [| exact Hy]. intros z. now apply outranks_trans.
    + destruct (insertM byAbrDescending x rest) as [placed' |] eqn:Hp;
        simpl in Hins; [| discriminate].
      injection Hins as <-.
      assert (Hyx : outranks y x).
      { exists qy, qx. repeat split; auto.
        destruct (Qlt_le_dec 0 (qy - qx)) as [Hlt | Hle]; [lra |].
        apply Qle_bool_iff in Hle. congruence. }
      constructor; [now apply IH |].
      eapply insertM_Forall; eauto.
Qed.

Lemma sortM_sorted (items sorted : list JSValue) :
  Forall hasBitrate items ->
  sortM byAbrDescending items = Ok sorted ->
  StronglySorted outranks sorted.
Proof.
  intros Hnum. revert sorted.
  induction Hnum as [| x rest Hx Hrest IH]; simpl; intros sorted Hs.
  - injection Hs as <-. constructor.
  - destruct (sortM byAbrDescending rest) as [s |] eqn:Hrec; simpl in Hs;
      [| discriminate].
    eapply insertM_sorted;
      [exact Hx | eapply sortM_Forall; eauto | apply IH; reflexivity | exact Hs].
Qed.

Lemma FirstHighestBitrate_bound (entries : list JSValue) (best : JSValue) (qb : Q) :
  FirstHighestBitrate entries best -> bitrateIs best qb ->
  Forall (fun f => exists q, bitrateIs f q /\ (q <= qb)%Q) entries.
Proof.
  intros (before & after & qb' & -> & Hb & Hbefore & Hafter) Hqb.
  rewrite (bitrateIs_functional Hb Hqb) in *.
  apply Forall_app. split.
  - eapply Forall_impl; [| exact Hbefore].
    intros f [q [Hq Hlt]]. exists q. split; [assumption | lra].
  - constructor; [| assumption]. exists qb. split; [assumption | lra].
Qed.

(** Entries with bitrates have a first one of highest bitrate. *)
Lemma FirstHighestBitrate_exists (entries : list JSValue) :
  entries <> [] -> Forall hasBitrate entries ->
  exists best, FirstHighestBitrate entries best.
Proof.
  intros Hne Hnum. induction Hnum as [| x rest [qx Hx] Hrest IH]; [easy |].
  destruct rest as [| y rest].
  - exists x, [], [], qx. repeat split; auto.
  - destruct IH as [best Hbest]; [discriminate |].
    pose proof Hbest as (before & after & qb & Hsplit & Hb & Hbefore & Hafter).
    destruct (Qlt_le_dec qx qb) as [Hlt | Hle].
    + exists best, (x :: before), after, qb. rewrite Hsplit.
      repeat split; auto. constructor; [| assumption]. now exists qx.
    + exists x, [], (y :: rest), qx. repeat split; auto.
      eapply Forall_impl; [| exact (FirstHighestBitrate_bound Hbest Hb)].
      intros f [q [Hq Hqle]]. exists q. split; [assumption | lra].
Qed.

(** On the entries the filter keeps: when they carry bitrates, the
    audioUrl selected from the formats is the url of the first of them of
    highest bitrate. *)
Lemma selectFormatsAudioUrl_first_highest
    (metadata : JSValue) (items : list JSValue) :
  optMember metadata "formats" = JArr items ->
  Forall readable items ->
  filter declaresAudioOnly items <> [] ->
  Forall hasBitrate (filter declaresAudioOnly items) ->
  (exists best, FirstHighestBitrate (filter declaresAudioOnly items) best) /\
  (forall best,
     FirstHighestBitrate (filter declaresAudioOnly items) best ->
     selectFormatsAudioUrl metadata = Ok (optMember best "url") /\
     forall p : Platform,
       truthy (optMember best "url") = true \/ p <> tiktok ->
       selectAudioUrl metadata p = Ok (optMember best "url")).
Proof.
  intros Hformats Hread Hne Hnum.
  split; [now apply FirstHighestBitrate_exists |].
  intros best Hbest.
  assert (Hsel : selectFormatsAudioUrl metadata = Ok (optMember best "url")).
  { unfold selectFormatsAudioUrl. rewrite Hformats. cbn [truthy].
    rewrite filterM_filter
      by (eapply Forall_impl; [| exact Hread]; apply isAudioOnly_readable).
    fold declaresAudioOnly.
    change (filter _ items) with (filter declaresAudioOnly items).
    destruct (sortM_head Hbest) as [rest Hsorted].
    cbn [rbind]. rewrite Hsorted.
    apply declaresAudioOnly_member.
    destruct Hbest as (before & after & _ & Hsplit & _).
    assert (Hin : In best (filter declaresAudioOnly items))
      by (rewrite Hsplit; apply in_or_app; right; now left).
    now apply filter_In in Hin. }
  split; [exact Hsel |].
  intros p Hp. unfold selectAudioUrl. rewrite Hsel. cbn [rbind].
  destruct Hp as [Hp | Hp]; [now rewrite Hp |].
  destruct p; try (now rewrite andb_false_r). now contradiction Hp.
Qed.

(** *** From the formats in the words of the specification to the code *)

Lemma Holds_lookup (fields : list (string * JSValue)) (k : string) (v : JSValue) :
  Holds fields k v -> lookup k fields = v.
Proof.
  induction 1 as [k | k v rest | k k' v v' rest Hne _ IH]; simpl.
  - reflexivity.
  - now rewrite String.eqb_refl.
  - apply String.eqb_neq in Hne. now rewrite Hne.
Qed.

Lemma holdsNothing_falsy (fields : list (string * JSValue)) (k : string) :
  holdsNothing fields k -> truthy (lookup k fields) = false.
Proof. intros [Hk | Hk]; now rewrite (Holds_lookup Hk). Qed.

Lemma holdsNothing_not_text (fields : list (string * JSValue)) (k s : string) :
  holdsNothing fields k -> strictEqStr (lookup k fields) s = false.
Proof. intros [Hk | Hk]; now rewrite (Holds_lookup Hk). Qed.

Lemma Represents_readable (f : JSValue) (e : Format) :
  Represents f e -> readable f.
Proof. intros (fields & -> & _). split; discriminate. Qed.

Lemma Represents_url (f : JSValue) (e : Format) :
  Represents f e -> optMember f "url" = fmt_url e.
Proof. intros (fields & -> & _ & _ & _ & Hu). apply (Holds_lookup Hu). Qed.

(** The filter of the service lets through every audio-only format, and
    beside them only formats that declare no codec at all. *)
Lemma Represents_filter (f : JSValue) (e : Format) :
  Represents f e ->
  (audioOnlyFormat e = true -> declaresAudioOnly f = true) /\
  (declaresAudioOnly f = true -> ~ declaresNoCodec e -> audioOnlyFormat e = true).
Proof.
  intros (fields & -> & Ha & Hv & _ & _).
  unfold declaresAudioOnly, isAudioOnly, audioOnlyFormat, declaresAudioCodec,
    declaresNoVideoCodec, declaresNoCodec.
  cbn [member optMember rbind].
  destruct (fmt_acodec e) as [a |]; cbn [holdsText] in Ha.
  - rewrite (Holds_lookup Ha). cbn [truthy].
    destruct (String.eqb_spec a ""); cbn [negb andb].
    + split; [discriminate | discriminate].
    + destruct (fmt_vcodec e) as [v |]; cbn [holdsText] in Hv.
      * rewrite (Holds_lookup Hv). cbn [strictEqStr].
        destruct (String.eqb_spec v "none"), (String.eqb_spec a "none");
          cbn [negb andb]; subst; intuition (try discriminate; try congruence).
      * rewrite (holdsNothing_not_text _ Hv), andb_false_r.
        split; intros; discriminate.
  - rewrite (holdsNothing_falsy Ha). split; intros; discriminate.
Qed.

Lemma Represents_bitrate (f : JSValue) (e : Format) :
  Represents f e -> exists q, bitrateIs f q /\ (q == bitrateOf e)%Q.
Proof.
  intros (fields & -> & _ & _ & Hb & _).
  unfold bitrateIs, abrOrZero, bitrateOf, or. cbn [member optMember rbind].
  destruct (fmt_abr e) as [q |]; cbn [holdsNumber] in Hb.
  - rewrite (Holds_lookup Hb). cbn [truthy].
    destruct (Qeq_bool q 0) eqn:E; cbn [negb].
    + exists 0%Q. split; [reflexivity |]. apply Qeq_bool_iff in E. now symmetry.
    + exists q. split; reflexivity.
  - rewrite (holdsNothing_falsy Hb). exists 0%Q. split; reflexivity.
Qed.

(** What holds of the formats holds of the entries the filter keeps. *)
Lemma Forall2_filtered (P : JSValue -> Prop) (Q : Format -> Prop)
    (items : list JSValue) (formats : list Format) :
  Forall2 Represents items formats ->
  Forall Q formats ->
  (forall f e, Represents f e -> Q e -> declaresAudioOnly f = true -> P f) ->
  Forall P (filter declaresAudioOnly items).
Proof.
  intros Hrep HQ Hstep.
  induction Hrep as [| f e items formats Hfe _ IH]; simpl; [constructor |].
  inversion HQ; subst.
  destruct (declaresAudioOnly f) eqn:Hf; [constructor |]; eauto.
Qed.

(** The entry of the best format is the first of highest bitrate among
    the entries the filter keeps. *)
Lemma HighestBitrateFirst_entries (items : list JSValue) (formats : list Format)
    (best : Format) :
  Forall2 Represents items formats ->
  Forall (fun e => ~ declaresNoCodec e) formats ->
  HighestBitrateFirst formats best ->
  exists entry,
    Represents entry best /\
    FirstHighestBitrate (filter declaresAudioOnly items) entry.
Proof.
  intros Hrep Hslip (before & after & -> & Hbest & Hbefore & Hafter).
  apply Forall2_app_inv_r in Hrep as (ibefore & irest & Hrb & Hrr & ->).
  inversion Hrr as [| entry ? iafter ? Hre Hra]; subst.
  apply Forall_app in Hslip as [Hslipb Hslipr].
  inversion Hslipr as [| ? ? _ Hslipa]; subst.
  destruct (Represents_bitrate Hre) as (qb & Hqb & Eqb).
  exists entry. split; [assumption |].
  exists (filter declaresAudioOnly ibefore), (filter declaresAudioOnly iafter), qb.
  split; [| split; [assumption | split]].
  - rewrite filter_app. simpl.
    now rewrite (proj1 (Represents_filter Hre) Hbest).
  - apply (@Forall2_filtered _
             (fun e => ~ declaresNoCodec e /\
                       (audioOnlyFormat e = true -> (bitrateOf e < bitrateOf best)%Q))
             ibefore before Hrb).
    + apply Forall_forall. intros e He. split.
      * exact (proj1 (Forall_forall _ _) Hslipb e He).
      * exact (proj1 (Forall_forall _ _) Hbefore e He).
    + intros f e Hfe [Hnot Hlt] Hf.
      destruct (Represents_bitrate Hfe) as (q & Hq & Eq).
      exists q. split; [assumption |].
      specialize (Hlt (proj2 (Represents_filter Hfe) Hf Hnot)).
      rewrite Eq, Eqb. exact Hlt.
  - apply (@Forall2_filtered _
             (fun e => ~ declaresNoCodec e /\
                       (audioOnlyFormat e = true -> (bitrateOf e <= bitrateOf best)%Q))
             iafter after Hra).
    + apply Forall_forall. intros e He. split.
      * exact (proj1 (Forall_forall _ _) Hslipa e He).
      * exact (proj1 (Forall_forall _ _) Hafter e He).
    + intros f e Hfe [Hnot Hle] Hf.
      destruct (Represents_bitrate Hfe) as (q & Hq & Eq).
      exists q. split; [assumption |].
      specialize (Hle (proj2 (Represents_filter Hfe) Hf Hnot)).
      rewrite Eq, Eqb. exact Hle.
Qed.

Lemma HighestBitrateFirst_bound (formats : list Format) (best : Format) :
  HighestBitrateFirst formats best ->
  Forall (fun e => audioOnlyFormat e = true -> (bitrateOf e <= bitrateOf best)%Q)
    formats.
Proof.
  intros (before & after & -> & _ & Hbefore & Hafter).
  apply Forall_app. split.
  - eapply Forall_impl; [| exact Hbefore]. cbn beta. intros e He Ha.
    apply Qlt_le_weak. now apply He.
  - constructor; [intros _; apply Qle_refl | assumption].
Qed.

(** Formats of which one is audio-only have a first audio-only format of
    highest bitrate. *)
Lemma HighestBitrateFirst_exists (formats : list Format) :
  (exists e, In e formats /\ audioOnlyFormat e = true) ->
  exists best, HighestBitrateFirst formats best.
Proof.
  intros Hex. apply existsb_exists in Hex.
  induction formats as [| e rest IH]; [discriminate |].
  simpl in Hex. destruct (existsb audioOnlyFormat rest) eqn:Hrest.
  - destruct (IH eq_refl) as [best Hbest].
    pose proof (HighestBitrateFirst_bound Hbest) as Hbound.
    destruct Hbest as (before & after & -> & Hb & Hbefore & Hafter).
    destruct (audioOnlyFormat e) eqn:He.
    + destruct (Qlt_le_dec (bitrateOf e) (bitrateOf best)) as [Hlt | Hle].
      * exists best, (e :: before), after. repeat split; auto.
      * exists e, [], (before ++ best :: after)%list. repeat split; auto.
        eapply Forall_impl; [| exact Hbound]. cbn beta. intros x Hx Hax.
        eapply Qle_trans; [now apply Hx | exact Hle].
    + exists best, (e :: before), after. repeat split; auto.
      constructor; [| assumption]. intros F. congruence.
  - rewrite orb_false_r in Hex. exists e, [], rest. repeat split; auto.
    apply Forall_forall. intros x Hx Hax.
    assert (Hin : existsb audioOnlyFormat rest = true)
      by (apply existsb_exists; now exists x).
    congruence.
Qed.

(** C5, as amended: when the metadata holds a formats list whose entries
    are format objects of the extractor (objects whose codecs are text,
    whose bitrate is a number, any of them possibly missing or null), none
    of them declaring no codec at all, and at least one of them declares an
    audio codec and no video codec, then there is a first such format of
    highest bitrate, a missing bitrate counting as 0, and the audioUrl
    selected from the formats is its URL: a later format of the same bitrate
    does not displace it.  That value is the audioUrl of the request when it
    is a non-empty string or the platform is not tiktok. *)
Theorem highest_bitrate_audio_only_entry_is_selected
    (metadata : JSValue) (fields : list (string * JSValue))
    (items : list JSValue) (formats : list Format) :
  metadata = JObj fields ->
  Holds fields "formats" (JArr items) ->
  Forall2 Represents items formats ->
  Forall (fun e => ~ declaresNoCodec e) formats ->
  (exists e, In e formats /\ audioOnlyFormat e = true) ->
  (exists best, HighestBitrateFirst formats best) /\
  (forall best,
     HighestBitrateFirst formats best ->
     selectFormatsAudioUrl metadata = Ok (fmt_url best) /\
     forall p : Platform,
       (exists s, fmt_url best = JStr s /\ s <> "") \/ p <> tiktok ->
       selectAudioUrl metadata p = Ok (fmt_url best)).
Proof.
  intros -> Hformats Hrep Hslip Hex.
  split; [now apply HighestBitrateFirst_exists |].
  intros best Hbest.
  destruct (HighestBitrateFirst_entries Hrep Hslip Hbest) as (entry & Hre & Hfirst).
  assert (Hread : Forall readable items).
  { clear - Hrep. induction Hrep; constructor; eauto using Represents_readable. }
  assert (Hnum : Forall hasBitrate (filter declaresAudioOnly items)).
  { apply (@Forall2_filtered _ (fun _ => True) items formats Hrep).
    - apply Forall_forall. auto.
    - intros f e Hfe _ _. destruct (Represents_bitrate Hfe) as (q & Hq & _).
      now exists q. }
  assert (Hne : filter declaresAudioOnly items <> []).
  { destruct Hfirst as (b & a & _ & -> & _). now destruct b. }
  destruct (selectFormatsAudioUrl_first_highest (JObj fields)
              (Holds_lookup Hformats) Hread Hne Hnum) as [_ Hsel].
  destruct (Hsel entry Hfirst) as [Hformat Hrequest].
  rewrite (Represents_url Hre) in Hformat, Hrequest.
  split; [exact Hformat |].
  intros p [(s & Hs & Hnonempty) | Hp]; apply Hrequest.
  - left. rewrite Hs. cbn [truthy]. apply String.eqb_neq in Hnonempty.
    now rewrite Hnonempty.
  - now right.
Qed.

Lemma at_last (init : list JSValue) (x : JSValue) :
  at_ (init ++ [x]) (Z.of_nat (List.length (init ++ [x])) - 1) = x.
Proof.
  unfold at_. rewrite length_app. simpl List.length.
  replace (Z.of_nat (List.length init + 1) - 1)%Z
    with (Z.of_nat (List.length init)) by lia.
  destruct (Z.ltb_spec (Z.of_nat (List.length init)) 0); [lia |].
  rewrite Nat2Z.id. apply nth_middle.
Qed.

(** C6: when the metadata holds a thumbnails list, the selected
    thumbnailUrl is the url of the last element of that list (nothing for a
    list without elements); when it holds no thumbnails list, the selected
    thumbnailUrl is the singular thumbnail field of the metadata. *)
Theorem thumbnail_is_last_of_list_or_singular_field (metadata : JSValue) :
  (forall init lastThumb,
     optMember metadata "thumbnails" = JArr (init ++ [lastThumb]) ->
     selectThumbnailUrl metadata = optMember lastThumb "url") /\
  (optMember metadata "thumbnails" = JArr [] ->
     selectThumbnailUrl metadata = JUndefined) /\
  ((forall thumbnails, optMember metadata "thumbnails" <> JArr thumbnails) ->
     selectThumbnailUrl metadata = optMember metadata "thumbnail").
Proof.
  unfold selectThumbnailUrl. repeat split.
  - intros init lastThumb ->. now rewrite at_last.
  - intros ->. reflexivity.
  - intros Hnot. destruct (optMember metadata "thumbnails"); try reflexivity.
    now contradiction (Hnot items).
Qed.

End EnrichmentFacts.

(** * Further properties of the service and of its caller *)

(** ** URL cleaning *)

(** X1: cleaning is idempotent, the cleaned URL is a prefix of the
    submitted one, and the cleaned form of a URL that contains
    "instagram.com" holds no question mark. *)
Theorem cleanInstagramUrl_idempotent (url : string) :
  cleanInstagramUrl (cleanInstagramUrl url) = cleanInstagramUrl url /\
  HasPrefix url (cleanInstagramUrl url) /\
  (Contains url "instagram.com" -> occurs "?" (cleanInstagramUrl url) = false).
Proof.
  split; [| split].
  - unfold cleanInstagramUrl at 2 3. destruct (includes url "instagram.com") eqn:E.
    + unfold cleanInstagramUrl.
      destruct (includes (hd "" (split "?" url)) "instagram.com"); [| reflexivity].
      apply split_head_whole. apply split_head_prefix.
    + unfold cleanInstagramUrl. now rewrite E.
  - apply cleanInstagramUrl_prefix.
  - intros Hig. apply includes_spec in Hig. unfold cleanInstagramUrl.
    rewrite Hig. apply split_head_prefix.
Qed.

(** ** The environment of the child processes *)

Lemma envGet_envSet_same (k v : string) (env : ProcessEnv) :
  envGet k (envSet k v env) = Some v.
Proof.
  induction env as [| [k' v'] env IH]; simpl.
  - now rewrite String.eqb_refl.
  - destruct (String.eqb k k') eqn:E; simpl.
    + now rewrite String.eqb_refl.
    + now rewrite E.
Qed.

Lemma envGet_envSet_other (k k' v : string) (env : ProcessEnv) :
  k' <> k -> envGet k' (envSet k v env) = envGet k' env.
Proof.
  intros Hne. induction env as [| [k0 v0] env IH]; simpl.
  - destruct (String.eqb_spec k' k); [contradiction | reflexivity].
  - destruct (String.eqb_spec k k0) as [<- | Hk]; simpl.
    + destruct (String.eqb_spec k' k); [contradiction | reflexivity].
    + now rewrite IH.
Qed.

Section EnvFacts.

Context `{RT : Runtime}.

(** X2: the environment handed to the child processes differs from
    [process.env] in PATH at most, and not at all off Windows or without a
    non-empty APPDATA. *)
Theorem getAugmentedEnv_touches_PATH_only :
  (forall k, k <> "PATH" -> envGet k getAugmentedEnv = envGet k process_env) /\
  (process_platform_win32 = false \/
   envGet "APPDATA" process_env = None \/
   envGet "APPDATA" process_env = Some "" ->
   getAugmentedEnv = process_env).
Proof.
  unfold getAugmentedEnv. split.
  - intros k Hk. destruct (envGet "APPDATA" process_env) as [appData |]; [| reflexivity].
    destruct (process_platform_win32 && negb (String.eqb appData "")); [| reflexivity].
    destruct (envGet "PATH" process_env) as [p |];
      [destruct (negb (String.eqb p "")) |]; now apply envGet_envSet_other.
  - intros [Hw | [Ha | Ha]].
    + rewrite Hw. now destruct (envGet "APPDATA" process_env).
    + now rewrite Ha.
    + rewrite Ha. simpl. now rewrite andb_false_r.
Qed.

(** X3: on Windows with a non-empty APPDATA the PATH of the child
    processes is the Scripts directory of the user's Python, followed by a
    semicolon and the former PATH when there was a non-empty one. *)
Theorem getAugmentedEnv_prepends_scripts_dir (appData : string) :
  process_platform_win32 = true ->
  envGet "APPDATA" process_env = Some appData ->
  appData <> "" ->
  let scriptsDir := path_join [appData; "Python"; "Python312"; "Scripts"] in
  (forall p, envGet "PATH" process_env = Some p -> p <> "" ->
     envGet "PATH" getAugmentedEnv = Some (scriptsDir ++ ";" ++ p)) /\
  (envGet "PATH" process_env = None \/ envGet "PATH" process_env = Some "" ->
     envGet "PATH" getAugmentedEnv = Some scriptsDir).
Proof.
  intros Hw Ha Hne scriptsDir. unfold getAugmentedEnv. rewrite Ha, Hw.
  apply String.eqb_neq in Hne. rewrite Hne. simpl. split.
  - intros p Hp Hp'. rewrite Hp. apply String.eqb_neq in Hp'. rewrite Hp'. simpl.
    apply envGet_envSet_same.
  - intros [Hp | Hp]; rewrite Hp; simpl; apply envGet_envSet_same.
Qed.

(** ** The common arguments *)

(** X4: off Windows no --ffmpeg-location is ever passed; on Windows the
    flag and the configured directory follow the user agent, whatever the
    URL. *)
Theorem buildCommonArgs_ffmpeg_location (url : string) :
  (process_platform_win32 = false ->
     ~ In "--ffmpeg-location" (buildCommonArgs url)) /\
  (process_platform_win32 = true ->
     exists rest,
       buildCommonArgs url =
       "--geo-bypass" :: "--user-agent" :: MODERN_UA
         :: "--ffmpeg-location" :: getFFmpegLocation :: rest).
Proof.
  unfold buildCommonArgs, getFFmpegLocation. split; intros Hw; rewrite Hw; simpl.
  - destruct (includes url "tiktok.com"), (includes url "instagram.com"); simpl;
      intuition discriminate.
  - destruct (includes url "tiktok.com"), (includes url "instagram.com"); simpl;
      eexists; reflexivity.
Qed.

(** X5: the two platform tests of [buildCommonArgs] do not exclude each
    other: for a URL that contains both domains the arguments are the
    profile of tiktok followed by the flags of instagram. *)
Theorem buildCommonArgs_both_domains (url : string) :
  Contains url "tiktok.com" -> Contains url "instagram.com" ->
  buildCommonArgs url = (platformProfile tiktok ++ instagramFlags)%list.
Proof.
  intros Ht Hi. apply includes_spec in Ht, Hi.
  unfold buildCommonArgs, platformProfile, instagramFlags. rewrite Ht, Hi.
  destruct (String.eqb getFFmpegLocation ""); reflexivity.
Qed.

End EnvFacts.

(** ** The error mapping of the route *)

Lemma Contains_app_r (a b t : string) : Contains b t -> Contains (a ++ b) t.
Proof.
  intros [x [y ->]]. exists (a ++ x), y. now rewrite append_assoc.
Qed.

Lemma Contains_app_l (a b t : string) : Contains a t -> Contains (a ++ b) t.
Proof.
  intros [x [y ->]]. exists x, (y ++ b). now rewrite !append_assoc.
Qed.

Lemma categorizeError_extraction_comes_first_aux (m : string) :
  Contains m "yt_dlp" ->
  statusCode (categorizeError (Some m)) = 422%Z /\
  errorType (categorizeError (Some m)) = "ExtractionError".
Proof.
  intros Hm. apply includes_spec in Hm. unfold categorizeError, messageIncludes.
  rewrite Hm, orb_true_r. split; reflexivity.
Qed.

(** X6: a message that mentions "yt-dlp" or "yt_dlp" is an
    ExtractionError with status 422, whatever else it mentions. *)
Theorem categorizeError_extraction_comes_first (m : string) :
  Contains m "yt-dlp" \/ Contains m "yt_dlp" ->
  statusCode (categorizeError (Some m)) = 422%Z /\
  errorType (categorizeError (Some m)) = "ExtractionError".
Proof.
  intros Hm. unfold categorizeError, messageIncludes.
  assert (E : includes m "yt-dlp" || includes m "yt_dlp" = true).
  { apply orb_true_iff. destruct Hm as [Hm | Hm]; apply includes_spec in Hm; auto. }
  rewrite E. split; reflexivity.
Qed.

(** X7: for an error with a message, the status is 500 exactly when the
    message mentions none of the nine keywords. *)
Theorem categorizeError_default_iff (m : string) :
  statusCode (categorizeError (Some m)) = 500%Z <->
  Forall (fun t => ~ Contains m t)
    ["yt-dlp"; "yt_dlp"; "network"; "connection"; "timeout";
     "not found"; "404"; "permission"; "access"].
Proof.
  repeat rewrite Forall_cons_iff. repeat rewrite <- includes_false.
  unfold categorizeError, messageIncludes.
  destruct (includes m "yt-dlp"); [simpl; intuition discriminate |].
  destruct (includes m "yt_dlp"); [simpl; intuition discriminate |].
  destruct (includes m "network"); [simpl; intuition discriminate |].
  destruct (includes m "connection"); [simpl; intuition discriminate |].
  destruct (includes m "timeout"); [simpl; intuition discriminate |].
  destruct (includes m "not found"); [simpl; intuition discriminate |].
  destruct (includes m "404"); [simpl; intuition discriminate |].
  destruct (includes m "permission"); [simpl; intuition discriminate |].
  destruct (includes m "access"); [simpl; intuition discriminate |].
  simpl. intuition (auto using Forall_nil).
Qed.

(** ** One invocation of the extractor *)

Lemma join_yt_dlp_module (args : list string) :
  Contains (join " " ("-m" :: "yt_dlp" :: args)) "yt_dlp".
Proof.
  cbn [join]. apply Contains_app_r, Contains_app_r.
  destruct args as [| a rest].
  - exists "", "". reflexivity.
  - exists "", (" " ++ join " " (a :: rest)). reflexivity.
Qed.

Lemma commandFailed_names_module (code : option Z)
    (command : string) (args : list string) (err : string) :
  Contains ("Command failed (" ++ showCode code ++ "): " ++ command
            ++ " " ++ join " " ("-m" :: "yt_dlp" :: args) ++ newline ++ err)
           "yt_dlp".
Proof.
  apply Contains_app_r, Contains_app_r, Contains_app_r, Contains_app_r,
    Contains_app_r, Contains_app_l, join_yt_dlp_module.
Qed.

Section TierFacts.

Context `{RT : Runtime} {World : Type} `{Environment World}.

Lemma exec_runYtDlpRaw (args : list string) (cwd : option string) (w : World) :
  exec (runYtDlpRaw args cwd) w =
  if exitedWithZero (fst (executableAnswer args cwd w)) then
    exec (run "yt-dlp" args cwd) w
  else
    let r := exec (run getPythonCommand ("-m" :: "yt_dlp" :: args) cwd)
                  (snd (executableAnswer args cwd w)) in
    {| outcome := outcome r; final := final r;
       calls := Called (Spawn "yt-dlp" args cwd getAugmentedEnv)
                  (fst (executableAnswer args cwd w)) :: calls r |}.
Proof.
  unfold runYtDlpRaw. rewrite exec_tryCatch.
  destruct (exec_run "yt-dlp" args cwd w) as (Hc & Hf & Ho).
  fold (executableAnswer args cwd w) in Hc, Hf, Ho.
  destruct (exec (run "yt-dlp" args cwd) w) as [o f c] eqn:E.
  cbn [outcome final calls] in *. subst c f.
  destruct (fst (executableAnswer args cwd w)) as [e | [[| z | z] |] out err];
    cbn [exitedWithZero] in *; subst o; reflexivity.
Qed.

(** X8: an invocation resolves exactly when the executable, or else the
    interpreter, closes with exit code 0; it launches one child when the
    executable closes with 0 and two otherwise, never more. *)
Theorem runYtDlpRaw_resolves_iff (args : list string) (cwd : option string)
    (w : World) :
  ((exists o, outcome (exec (runYtDlpRaw args cwd) w) = Ok o) <->
   exitedWithZero (fst (executableAnswer args cwd w)) = true \/
   exitedWithZero (fst (interpreterAnswer args cwd w)) = true) /\
  List.length (calls (exec (runYtDlpRaw args cwd) w)) =
    (if exitedWithZero (fst (executableAnswer args cwd w)) then 1 else 2)%nat.
Proof.
  rewrite exec_runYtDlpRaw.
  destruct (exec_run "yt-dlp" args cwd w) as (Hc1 & _ & _).
  pose proof (run_ok_iff "yt-dlp" args cwd w) as Hok1.
  fold (executableAnswer args cwd w) in Hok1.
  destruct (exec_run getPythonCommand ("-m" :: "yt_dlp" :: args) cwd
              (snd (executableAnswer args cwd w))) as (Hc2 & _ & _).
  pose proof (run_ok_iff getPythonCommand ("-m" :: "yt_dlp" :: args) cwd
                (snd (executableAnswer args cwd w))) as Hok2.
  fold (interpreterAnswer args cwd w) in Hok2.
  destruct (exitedWithZero (fst (executableAnswer args cwd w))) eqn:E1.
  - split; [| now rewrite Hc1]. split; [now left |]. intros _. now apply Hok1.
  - cbn [outcome calls]. split; [| now rewrite Hc2].
    rewrite Hok2. split; [now right | intros [F | F]; [discriminate | exact F]].
Qed.

(** X9: when an invocation rejects, the error is the one of the
    interpreter run, the failure of the executable is dropped: the launch
    error itself when the interpreter could not be launched, and otherwise a
    "Command failed" error that names the module, which the route maps to
    ExtractionError and status 422 whatever the child wrote to stderr. *)
Theorem runYtDlpRaw_rejection_is_extraction_error
    (args : list string) (cwd : option string) (w : World) (e : JsError) :
  outcome (exec (runYtDlpRaw args cwd) w) = Err e ->
  (forall launchError,
     fst (interpreterAnswer args cwd w) = ChildError launchError ->
     e = launchError) /\
  (launchFailed (fst (interpreterAnswer args cwd w)) = false ->
   exists m,
     e = Error m /\
     statusCode (categorizeError (Some m)) = 422%Z /\
     errorType (categorizeError (Some m)) = "ExtractionError").
Proof.
  rewrite exec_runYtDlpRaw.
  destruct (exec_run "yt-dlp" args cwd w) as (_ & _ & Ho1).
  fold (executableAnswer args cwd w) in Ho1.
  destruct (exec_run getPythonCommand ("-m" :: "yt_dlp" :: args) cwd
              (snd (executableAnswer args cwd w))) as (_ & _ & Ho2).
  fold (interpreterAnswer args cwd w) in Ho2.
  destruct (exitedWithZero (fst (executableAnswer args cwd w))) eqn:E1.
  - rewrite Ho1.
    destruct (fst (executableAnswer args cwd w)) as [e1 | code out err];
      [discriminate E1 |].
    discriminate.
  - cbn [outcome]. rewrite Ho2. intros He. split.
    + intros launchError Hl. rewrite Hl in He. now injection He.
    + intros Hl.
      destruct (fst (interpreterAnswer args cwd w)) as [e2 | code out err];
        [discriminate Hl |].
      destruct (exitedWithZero (ChildClose code out err)); [discriminate He |].
      exists ("Command failed (" ++ showCode code ++ "): " ++ getPythonCommand
              ++ " " ++ join " " ("-m" :: "yt_dlp" :: args) ++ newline ++ err).
      split; [congruence |].
      apply categorizeError_extraction_comes_first_aux, commandFailed_names_module.
Qed.

End TierFacts.

(** ** The orchestration sequence *)

Lemma filter_first {A : Type} (p : A -> bool) (l : list A) (x : A) (rest : list A) :
  filter p l = x :: rest ->
  p x = true /\
  exists before after,
    l = (before ++ x :: after)%list /\ Forall (fun y => p y = false) before.
Proof.
  induction l as [| y l IH]; simpl; [discriminate |].
  destruct (p y) eqn:Hy.
  - intros [= <- <-]. split; [assumption |]. exists [], l. split; [reflexivity | constructor].
  - intros Hf. destruct (IH Hf) as (Hx & before & after & -> & Hb).
    split; [assumption |]. exists (y :: before), after.
    split; [reflexivity | now constructor].
Qed.

Section SequenceFacts.

Context `{RT : Runtime} {World : Type} `{Environment World}.

(** The calls of a run, step by step: each step is reached only when the
    one before it went through. *)
Lemma download_calls (url : string) (w0 : World) :
  calls (exec (downloadVideoAndExtractAudio url) w0) =
  (Called RandomUUID (requestId w0) :: calls (probeStep url w0) ++
   match outcome (probeStep url w0) with
   | Err _ => []
   | Ok probe =>
   match selectAudioUrl (parseMetadata (stdout probe)) (detectPlatform url) with
   | Err _ => []
   | Ok _ =>
   calls (videoStep url w0) ++
   match outcome (videoStep url w0) with
   | Err _ => []
   | Ok _ =>
   Called (ReaddirSync downloadsDir) (fst (downloadsListing url w0)) ::
   match fst (downloadsListing url w0) with
   | Err _ => []
   | Ok listing =>
   match filter (fun f => startsWith f (requestId w0 ++ "-")) listing with
   | [] => []
   | _ :: _ =>
   calls (audioStep url w0) ++
   match outcome (audioStep url w0) with
   | Err _ => []
   | Ok _ =>
   Called (ReaddirSync audiosDir) (fst (audiosListing url w0)) ::
   match fst (audiosListing url w0) with
   | Err _ => []
   | Ok _ =>
   [Called DateToISOString
      (fst (handle DateToISOString (snd (audiosListing url w0))))]
   end end end end end end end)%list.
Proof.
  unfold downloadVideoAndExtractAudio.
  rewrite exec_bind, exec_trigger. cbn [outcome final calls app].
  rewrite exec_bind. fold (requestId w0).
  change (exec _ (snd (handle RandomUUID w0))) with (probeStep url w0).
  f_equal.
  destruct (outcome (probeStep url w0)) as [probe | e];
    cbn [outcome final calls]; [| now rewrite app_nil_r].
  f_equal.
  rewrite exec_bind, exec_lift. cbn [outcome final calls app].
  destruct (selectAudioUrl _ _) as [selected | e]; [| reflexivity].
  cbn [outcome final calls].
  rewrite exec_bind.
  change (exec _ (final (probeStep url w0))) with (videoStep url w0).
  destruct (outcome (videoStep url w0)) as [video | e];
    cbn [outcome final calls]; [| now rewrite app_nil_r].
  f_equal.
  rewrite exec_bind, exec_readdirSync. cbn [outcome final calls app].
  fold (downloadsListing url w0).
  f_equal.
  destruct (fst (downloadsListing url w0)) as [listing | e]; [| reflexivity].
  cbn [outcome final calls].
  destruct (filter _ listing) as [| name rest]; [reflexivity |].
  rewrite exec_bind.
  change (exec _ (snd (downloadsListing url w0))) with (audioStep url w0).
  destruct (outcome (audioStep url w0)) as [audio | e];
    cbn [outcome final calls]; [| now rewrite app_nil_r].
  f_equal.
  rewrite exec_bind, exec_readdirSync. cbn [outcome final calls app].
  fold (audiosListing url w0).
  f_equal.
  destruct (fst (audiosListing url w0)) as [audios | e]; [| reflexivity].
  cbn [outcome final calls].
  rewrite exec_bind, exec_trigger. cbn [outcome final calls exec app].
  reflexivity.
Qed.

(** X10: a rejection of the probe is the outcome of the request, and
    the run ends there; a rejection of the video fetch likewise, before any
    directory is read. *)
Theorem invocation_failure_ends_the_run (url : string) (w0 : World) (e : JsError) :
  (outcome (probeStep url w0) = Err e ->
   outcome (exec (downloadVideoAndExtractAudio url) w0) = Err e /\
   calls (exec (downloadVideoAndExtractAudio url) w0)
     = Called RandomUUID (requestId w0) :: calls (probeStep url w0)) /\
  (forall probe selected,
     outcome (probeStep url w0) = Ok probe ->
     selectAudioUrl (parseMetadata (stdout probe)) (detectPlatform url) = Ok selected ->
     outcome (videoStep url w0) = Err e ->
     outcome (exec (downloadVideoAndExtractAudio url) w0) = Err e /\
     calls (exec (downloadVideoAndExtractAudio url) w0)
       = (Called RandomUUID (requestId w0)
            :: calls (probeStep url w0) ++ calls (videoStep url w0))%list).
Proof.
  split.
  - intros Hp. rewrite download_outcome, download_calls, Hp.
    now rewrite app_nil_r.
  - intros probe selected Hp Hs Hv.
    rewrite download_outcome, download_calls, Hp, Hs, Hv.
    now rewrite app_nil_r.
Qed.

(** X11: a rejection of the audio extraction is the outcome of the
    request: no record is returned, although the video was fetched and its
    file found. *)
Theorem audio_extraction_failure_discards_the_video
    (url : string) (w0 : World) (probe video : Output) (selected : JSValue)
    (listing : list string) (name : string) (e : JsError) :
  outcome (probeStep url w0) = Ok probe ->
  selectAudioUrl (parseMetadata (stdout probe)) (detectPlatform url) = Ok selected ->
  outcome (videoStep url w0) = Ok video ->
  fst (downloadsListing url w0) = Ok listing ->
  In name listing -> HasPrefix name (requestId w0 ++ "-") ->
  outcome (audioStep url w0) = Err e ->
  outcome (exec (downloadVideoAndExtractAudio url) w0) = Err e.
Proof.
  intros Hp Hs Hv Hl Hin Hpre Ha.
  rewrite download_outcome, Hp, Hs, Hv, Hl.
  apply startsWith_spec in Hpre.
  destruct (filter_some (fun f => startsWith f (requestId w0 ++ "-")) _ _ Hin Hpre)
    as (first & rest & ->).
  now rewrite Ha.
Qed.

(** X12: when a directory cannot be read, the error of [readdirSync] is
    the outcome of the request: for the downloads directory after the video
    fetch, and for the audios directory after the audio extraction. *)
Theorem unreadable_directory_fails_the_request
    (url : string) (w0 : World) (probe video : Output) (selected : JSValue)
    (e : JsError) :
  outcome (probeStep url w0) = Ok probe ->
  selectAudioUrl (parseMetadata (stdout probe)) (detectPlatform url) = Ok selected ->
  outcome (videoStep url w0) = Ok video ->
  (fst (downloadsListing url w0) = Err e ->
   outcome (exec (downloadVideoAndExtractAudio url) w0) = Err e) /\
  (forall listing name audio,
     fst (downloadsListing url w0) = Ok listing ->
     In name listing -> HasPrefix name (requestId w0 ++ "-") ->
     outcome (audioStep url w0) = Ok audio ->
     fst (audiosListing url w0) = Err e ->
     outcome (exec (downloadVideoAndExtractAudio url) w0) = Err e).
Proof.
  intros Hp Hs Hv. split.
  - intros Hl. now rewrite download_outcome, Hp, Hs, Hv, Hl.
  - intros listing name audio Hl Hin Hpre Ha Hal.
    rewrite download_outcome, Hp, Hs, Hv, Hl.
    apply startsWith_spec in Hpre.
    destruct (filter_some (fun f => startsWith f (requestId w0 ++ "-")) _ _ Hin Hpre)
      as (first & rest & ->).
    now rewrite Ha, Hal.
Qed.

(** X13: when the enrichment throws, the request fails with that error
    right after the probe: the video fetch is never launched. *)
Theorem enrichment_failure_ends_the_run
    (url : string) (w0 : World) (probe : Output) (e : JsError) :
  outcome (probeStep url w0) = Ok probe ->
  selectAudioUrl (parseMetadata (stdout probe)) (detectPlatform url) = Err e ->
  outcome (exec (downloadVideoAndExtractAudio url) w0) = Err e /\
  calls (exec (downloadVideoAndExtractAudio url) w0)
    = Called RandomUUID (requestId w0) :: calls (probeStep url w0).
Proof.
  intros Hp Hs. rewrite download_outcome, download_calls, Hp, Hs.
  now rewrite app_nil_r.
Qed.

(** X14: the file a returned record names is the first name of the
    downloads listing that begins with the identifier of the record and a
    dash, and videoPath is that file in the downloads directory, relative to
    the working directory. *)
Theorem record_names_first_file_of_request
    (url : string) (w0 : World) (r : DownloadResult) :
  outcome (exec (downloadVideoAndExtractAudio url) w0) = Ok r ->
  id r = requestId w0 /\
  HasPrefix (filename r) (id r ++ "-") /\
  videoPath r = path_relative process_cwd (path_join [downloadsDir; filename r]) /\
  exists before after,
    fst (downloadsListing url w0) = Ok (before ++ filename r :: after)%list /\
    Forall (fun f => ~ HasPrefix f (id r ++ "-")) before.
Proof.
  rewrite download_outcome.
  destruct (outcome (probeStep url w0)) as [probe |]; [| discriminate].
  destruct (selectAudioUrl _ _) as [selected |]; [| discriminate].
  destruct (outcome (videoStep url w0)); [| discriminate].
  destruct (fst (downloadsListing url w0)) as [listing |]; [| discriminate].
  destruct (filter _ listing) as [| name rest] eqn:Hf; [discriminate |].
  destruct (outcome (audioStep url w0)); [| discriminate].
  destruct (fst (audiosListing url w0)); [| discriminate].
  intros [= <-]. cbn [id filename videoPath].
  destruct (filter_first _ _ Hf) as (Hname & before & after & -> & Hbefore).
  split; [reflexivity |]. split; [now apply startsWith_spec |].
  split; [reflexivity |]. exists before, after. split; [reflexivity |].
  eapply Forall_impl; [| exact Hbefore]. cbn beta. intros f Hfalse Hpre.
  apply startsWith_spec in Hpre. congruence.
Qed.

(** X15: when a returned record has an audioPath, it is the path,
    relative to the working directory, of a file of the audios listing whose
    name starts with the identifier followed by "-audio" and ends with
    ".mp3". *)
Theorem audioPath_names_an_audio_file_of_request
    (url : string) (w0 : World) (r : DownloadResult) (p : string) :
  outcome (exec (downloadVideoAndExtractAudio url) w0) = Ok r ->
  audioPath r = Some p ->
  exists audios f,
    fst (audiosListing url w0) = Ok audios /\
    In f audios /\
    HasPrefix f (id r ++ "-audio") /\ HasSuffix f ".mp3" /\
    p = path_relative process_cwd (path_join [audiosDir; f]).
Proof.
  rewrite download_outcome.
  destruct (outcome (probeStep url w0)) as [probe |]; [| discriminate].
  destruct (selectAudioUrl _ _) as [selected |]; [| discriminate].
  destruct (outcome (videoStep url w0)); [| discriminate].
  destruct (fst (downloadsListing url w0)) as [listing |]; [| discriminate].
  destruct (filter _ listing) as [| name rest]; [discriminate |].
  destruct (outcome (audioStep url w0)); [| discriminate].
  destruct (fst (audiosListing url w0)) as [audios |]; [| discriminate].
  intros [= <-]. cbn [id audioPath].
  destruct (find (isAudioFileOf (requestId w0)) audios) as [f |] eqn:Hfind;
    [| discriminate].
  destruct (negb (String.eqb f "")); [| discriminate].
  destruct (negb (String.eqb (path_join [audiosDir; f]) "")); [| discriminate].
  intros [= <-]. apply find_some in Hfind as [Hin Hf].
  unfold isAudioFileOf in Hf. apply andb_true_iff in Hf as [Hpre Hsuf].
  exists audios, f. repeat split; auto.
  - now apply startsWith_spec.
  - now apply endsWith_spec.
Qed.

(** X16: when the video fetch went through but left no file of the
    request, the error of the request is one the route answers with status
    404 and NotFoundError. *)
Theorem missing_video_file_is_answered_404
    (url : string) (w0 : World) (probe video : Output) (selected : JSValue)
    (listing : list string) :
  outcome (probeStep url w0) = Ok probe ->
  selectAudioUrl (parseMetadata (stdout probe)) (detectPlatform url) = Ok selected ->
  outcome (videoStep url w0) = Ok video ->
  fst (downloadsListing url w0) = Ok listing ->
  (forall f, In f listing -> ~ HasPrefix f (requestId w0 ++ "-")) ->
  exists m,
    outcome (exec (downloadVideoAndExtractAudio url) w0) = Err (Error m) /\
    statusCode (categorizeError (Some m)) = 404%Z /\
    errorType (categorizeError (Some m)) = "NotFoundError".
Proof.
  intros Hprobe Hsel Hvideo Hlist Hnone.
  exists "Downloaded file not found".
  split; [| split; reflexivity].
  rewrite download_outcome, Hprobe, Hsel, Hvideo, Hlist.
  rewrite filter_none; [reflexivity |].
  intros f Hf. specialize (Hnone f Hf). rewrite <- startsWith_spec in Hnone.
  now destruct (startsWith f (requestId w0 ++ "-")).
Qed.

Lemma runYtDlpWithFallbacks_launches (url : string) (args : list string)
    (cwd : option string) (w : World) :
  (List.length (spawned (calls (exec (runYtDlpWithFallbacks url args cwd) w))) <= 2)%nat.
Proof.
  unfold runYtDlpWithFallbacks. rewrite exec_runYtDlpRaw.
  destruct (exec_run "yt-dlp" (buildCommonArgs url ++ args)%list cwd w) as (Hc1 & _ & _).
  destruct (exec_run getPythonCommand
              ("-m" :: "yt_dlp" :: buildCommonArgs url ++ args)%list cwd
              (snd (executableAnswer (buildCommonArgs url ++ args)%list cwd w)))
    as (Hc2 & _ & _).
  destruct (exitedWithZero _); cbn [calls].
  - rewrite Hc1. cbn [spawned List.length]. lia.
  - rewrite Hc2. cbn [spawned List.length]. lia.
Qed.

(** X17: whatever the environment answers, a request launches at most
    six child processes. *)
Theorem at_most_six_children (url : string) (w0 : World) :
  (List.length (spawned (calls (exec (downloadVideoAndExtractAudio url) w0))) <= 6)%nat.
Proof.
  rewrite download_calls.
  pose proof (runYtDlpWithFallbacks_launches (cleanInstagramUrl url)
                (probeArgs (cleanInstagramUrl url)) None
                (snd (handle RandomUUID w0))) as Hp.
  pose proof (runYtDlpWithFallbacks_launches (cleanInstagramUrl url)
                (videoArgs (outputTemplateOf (requestId w0)) (cleanInstagramUrl url))
                None (final (probeStep url w0))) as Hv.
  pose proof (runYtDlpWithFallbacks_launches (cleanInstagramUrl url)
                (audioArgs (audioTemplateOf (requestId w0)) (cleanInstagramUrl url))
                None (snd (downloadsListing url w0))) as Ha.
  fold (probeStep url w0) in Hp. fold (videoStep url w0) in Hv.
  fold (audioStep url w0) in Ha.
  cbn [spawned]. rewrite spawned_app, length_app.
  destruct (outcome (probeStep url w0)); [| simpl; lia].
  destruct (selectAudioUrl _ _); [| simpl; lia].
  rewrite spawned_app, length_app.
  destruct (outcome (videoStep url w0)); [| simpl; lia].
  cbn [spawned].
  destruct (fst (downloadsListing url w0)); [| simpl; lia].
  destruct (filter _ _); [simpl; lia |].
  rewrite spawned_app, length_app.
  destruct (outcome (audioStep url w0)); [| simpl; lia].
  cbn [spawned].
  destruct (fst (audiosListing url w0)); simpl; lia.
Qed.

(** X23: a run that returns a record launched the probe, the video
    fetch and the audio extraction in this order and nothing else, and the
    output templates handed to the video fetch and to the audio extraction
    both carry the identifier of the record. *)
Theorem record_id_is_in_both_templates
    (url : string) (w0 : World) (r : DownloadResult) :
  outcome (exec (downloadVideoAndExtractAudio url) w0) = Ok r ->
  let cleanUrl := cleanInstagramUrl url in
  spawned (calls (exec (downloadVideoAndExtractAudio url) w0))
    = (spawned (calls (probeStep url w0)) ++ spawned (calls (videoStep url w0))
         ++ spawned (calls (audioStep url w0)))%list /\
  (exists rest,
     spawned (calls (videoStep url w0))
     = ("yt-dlp",
        (buildCommonArgs cleanUrl
           ++ videoArgs (path_join [downloadsDir; (id r ++ "-%(title)s.%(ext)s")%string])
                cleanUrl)%list) :: rest) /\
  (exists rest,
     spawned (calls (audioStep url w0))
     = ("yt-dlp",
        (buildCommonArgs cleanUrl
           ++ audioArgs (path_join [audiosDir; (id r ++ "-audio.%(ext)s")%string])
                cleanUrl)%list) :: rest).
Proof.
  intros Hr cleanUrl. rewrite download_calls.
  rewrite download_outcome in Hr.
  destruct (outcome (probeStep url w0)) as [probe |]; [| discriminate].
  destruct (selectAudioUrl _ _) as [selected |]; [| discriminate].
  destruct (outcome (videoStep url w0)); [| discriminate].
  destruct (fst (downloadsListing url w0)) as [listing |]; [| discriminate].
  destruct (filter _ listing) as [| name rest]; [discriminate |].
  destruct (outcome (audioStep url w0)); [| discriminate].
  destruct (fst (audiosListing url w0)) as [audios |]; [| discriminate].
  injection Hr as <-. cbn [id].
  split; [| split].
  - cbn [spawned]. rewrite !spawned_app. cbn [spawned].
    rewrite !spawned_app. cbn [spawned]. now rewrite app_nil_r.
  - apply runYtDlpRaw_first_launch.
  - apply runYtDlpRaw_first_launch.
Qed.

End SequenceFacts.

(** ** The enrichment: failures and the music fallback *)

Section MusicFacts.

Context `{RT : Runtime}.

Import Js.

Lemma filterM_unreadable (items : list JSValue) :
  Exists (fun f => f = JNull \/ f = JUndefined) items ->
  exists msg, filterM isAudioOnly items = Err (TypeError msg).
Proof.
  induction items as [| f items IH]; intros Hex; [inversion Hex |].
  simpl. destruct (isAudioOnly f) as [b |] eqn:Hf.
  - assert (Hrest : Exists (fun f => f = JNull \/ f = JUndefined) items).
    { inversion Hex as [? ? [-> | ->] | ]; subst; try discriminate; assumption. }
    destruct (IH Hrest) as [msg ->]. simpl. now exists msg.
  - simpl. unfold isAudioOnly in Hf. destruct f; simpl in Hf;
      try (injection Hf as <-; eexists; reflexivity);
      try discriminate.
    destruct (truthy (lookup "acodec" fields)); discriminate.
Qed.

(** X18: formats that are truthy and not a list, and a formats list with
    a null entry, each make the enrichment throw a TypeError, for every
    platform. *)
Theorem malformed_formats_throw (metadata : JSValue) (p : Platform) :
  (truthy (optMember metadata "formats") = true ->
   (forall items, optMember metadata "formats" <> JArr items) ->
   exists msg, selectAudioUrl metadata p = Err (TypeError msg)) /\
  (forall items,
     optMember metadata "formats" = JArr items ->
     Exists (fun f => f = JNull \/ f = JUndefined) items ->
     exists msg, selectAudioUrl metadata p = Err (TypeError msg)).
Proof.
  unfold selectAudioUrl, selectFormatsAudioUrl. split.
  - intros Ht Hna. rewrite Ht.
    destruct (optMember metadata "formats") as [| | b | q | s | items | fields];
      try (eexists; reflexivity); try discriminate.
    now contradiction (Hna items).
  - intros items -> Hex. cbn [truthy].
    destruct (filterM_unreadable Hex) as [msg ->]. now exists msg.
Qed.

(** X19: a formats list whose entries can be read and of which none
    declares an audio codec without a video codec, the empty list among
    them, selects no audioUrl and throws nothing. *)
Theorem no_audio_only_entry_selects_nothing
    (metadata : JSValue) (items : list JSValue) :
  optMember metadata "formats" = JArr items ->
  Forall readable items ->
  filter declaresAudioOnly items = [] ->
  selectFormatsAudioUrl metadata = Ok JUndefined.
Proof.
  intros Hformats Hread Hnone. unfold selectFormatsAudioUrl.
  rewrite Hformats. cbn [truthy].
  rewrite filterM_filter
    by (eapply Forall_impl; [| exact Hread]; apply isAudioOnly_readable).
  change (filter _ items) with (filter declaresAudioOnly items).
  now rewrite Hnone.
Qed.

(** X20: what the music fallback selects is a string that starts with
    "http", or nothing. *)
Theorem selectMusicUrl_is_http_or_nothing (metadata : JSValue) :
  selectMusicUrl metadata = JUndefined \/
  exists s, selectMusicUrl metadata = JStr s /\ HasPrefix s "http".
Proof.
  unfold selectMusicUrl.
  match goal with |- context [find looksLikeUrl ?l] =>
    destruct (find looksLikeUrl l) as [u |] eqn:Hfind end; [| now left].
  apply find_some in Hfind as [_ Hu]. right.
  destruct u; try discriminate. exists s. split; [reflexivity |].
  now apply startsWith_spec.
Qed.

(** X21: when the metadata has a truthy music field, the track and song
    fields play no part in the fallback, even if music holds no usable
    URL. *)
Theorem music_field_shadows_track_and_song (metadata : JSValue) :
  truthy (optMember metadata "music") = true ->
  selectMusicUrl metadata
  = selectMusicUrl (JObj [("music", optMember metadata "music")]).
Proof.
  intros Hm. unfold selectMusicUrl.
  set (music := optMember metadata "music") in *.
  assert (E1 : or (or music (optMember metadata "track")) (optMember metadata "song")
               = music)
    by (unfold or; rewrite Hm; cbv iota; now rewrite Hm).
  assert (E2 : or (or (optMember (JObj [("music", music)]) "music")
                      (optMember (JObj [("music", music)]) "track"))
                  (optMember (JObj [("music", music)]) "song") = music).
  { change (optMember (JObj [("music", music)]) "music") with music.
    change (optMember (JObj [("music", music)]) "track") with JUndefined.
    change (optMember (JObj [("music", music)]) "song") with JUndefined.
    unfold or. rewrite Hm. cbv iota. now rewrite Hm. }
  rewrite E1, E2. reflexivity.
Qed.

(** X22: the music fallback is for tiktok only: for every other platform
    the audioUrl is the one selected from the formats, and metadata without
    formats gives the music URL on tiktok and nothing elsewhere. *)
Theorem music_fallback_is_for_tiktok_only (metadata : JSValue) :
  (forall p, p <> tiktok ->
     selectAudioUrl metadata p = selectFormatsAudioUrl metadata) /\
  (truthy (optMember metadata "formats") = false ->
   selectAudioUrl metadata tiktok = Ok (selectMusicUrl metadata) /\
   forall p, p <> tiktok -> selectAudioUrl metadata p = Ok JUndefined).
Proof.
  split.
  - intros p Hp. unfold selectAudioUrl.
    destruct (selectFormatsAudioUrl metadata) as [v |]; [| reflexivity].
    cbn [rbind]. destruct p; try (now rewrite andb_false_r).
    now contradiction Hp.
  - intros Hf.
    assert (Hsel : selectFormatsAudioUrl metadata = Ok JUndefined)
      by (unfold selectFormatsAudioUrl; now rewrite Hf).
    unfold selectAudioUrl. rewrite Hsel. cbn [rbind truthy negb andb].
    split; [reflexivity |].
    intros p Hp. destruct p; try reflexivity. now contradiction Hp.
Qed.

End MusicFacts.

(** ** The properties on concrete requests *)

Import Sample.

(** C1 on a run where the extractor reports success and the downloads
    directory only holds the file of another request. *)
Lemma missing_video_file_fails_the_request_witness :
  outcome (exec (downloadVideoAndExtractAudio tiktokUrl)
             (smooth probeStdout ["9b7d-clip.mp4"] []))
  = Err (Error "Downloaded file not found").
Proof.
  apply (@missing_video_file_fails_the_request posix Script scripted
           tiktokUrl (smooth probeStdout ["9b7d-clip.mp4"] [])
           {| stdout := probeStdout; stderr := "" |}
           {| stdout := ""; stderr := "" |}
           (JStr "https://a/128") ["9b7d-clip.mp4"]);
    try reflexivity.
  intros f [<- | []] Hpre. apply startsWith_spec in Hpre. discriminate Hpre.
Defined.

(** C2 on a run where the audio extraction left a file of another
    format. *)
Lemma missing_audio_file_is_tolerated_witness :
  exists r,
    outcome (exec (downloadVideoAndExtractAudio tiktokUrl)
               (smooth probeStdout ["3f2a-clip.mp4"] ["3f2a-audio.webm"])) = Ok r /\
    audioPath r = None.
Proof.
  apply (@missing_audio_file_is_tolerated posix Script scripted
           tiktokUrl (smooth probeStdout ["3f2a-clip.mp4"] ["3f2a-audio.webm"])
           {| stdout := probeStdout; stderr := "" |}
           {| stdout := ""; stderr := "" |} {| stdout := ""; stderr := "" |}
           (JStr "https://a/128") ["3f2a-clip.mp4"] ["3f2a-audio.webm"]
           "3f2a-clip.mp4");
    try reflexivity.
  - now left.
  - apply startsWith_spec. reflexivity.
  - intros f [<- | []] [_ Hsuf]. apply endsWith_spec in Hsuf. discriminate Hsuf.
Defined.

(** C3 on a run whose probe printed something that is not JSON: the
    request succeeds, without the enrichment. *)
Lemma unparseable_probe_output_is_tolerated_witness :
  exists r,
    outcome (exec (downloadVideoAndExtractAudio tiktokUrl)
               (smooth "WARNING: no metadata" ["3f2a-clip.mp4"] ["3f2a-audio.mp3"]))
    = Ok r /\
    title r = JUndefined /\ thumbnailUrl r = JUndefined /\
    publishedAt r = JUndefined /\ audioUrl r = JUndefined.
Proof.
  destruct (@unparseable_probe_output_is_tolerated posix Script scripted
              tiktokUrl
              (smooth "WARNING: no metadata" ["3f2a-clip.mp4"] ["3f2a-audio.mp3"])
              {| stdout := "WARNING: no metadata"; stderr := "" |}
              eq_refl eq_refl) as (_ & Hfields & Hsucceeds).
  destruct (Hsucceeds {| stdout := ""; stderr := "" |} {| stdout := ""; stderr := "" |}
              ["3f2a-clip.mp4"] ["3f2a-audio.mp3"] "3f2a-clip.mp4"
              eq_refl eq_refl (or_introl eq_refl)
              (proj1 (startsWith_spec "3f2a-clip.mp4" "3f2a-") eq_refl)
              eq_refl eq_refl) as [r Hr].
  exists r. split; [exact Hr | exact (Hfields r Hr)].
Defined.

(** C4: the URL of a reel whose query string mentions "tiktok.com"
    contains "instagram.com" and is not classified instagram. *)
Lemma detectPlatform_instagram_counterexample :
  Contains mixedUrl "instagram.com" /\ detectPlatform mixedUrl = tiktok /\
  detectPlatform mixedUrl <> instagram.
Proof.
  split; [apply includes_spec; reflexivity |].
  split; [reflexivity | discriminate].
Qed.

Lemma detectPlatform_by_substring_witness :
  detectPlatform tiktokUrl = tiktok /\
  detectPlatform reelUrl = instagram /\
  detectPlatform "https://example.com/watch?v=1" = unknown.
Proof.
  split; [| split].
  - apply (proj1 (detectPlatform_by_substring tiktokUrl)).
    apply includes_spec. reflexivity.
  - apply (proj1 (proj2 (detectPlatform_by_substring reelUrl))).
    + apply includes_spec. reflexivity.
    + apply includes_false. reflexivity.
  - apply (proj2 (proj2 (detectPlatform_by_substring "https://example.com/watch?v=1")));
      apply includes_false; reflexivity.
Defined.

(** C10 on the URL of a reel whose query string mentions "tiktok.com". *)
Lemma detectPlatform_tiktok_wins_witness :
  detectPlatform mixedUrl = tiktok /\ detectPlatform mixedUrl <> instagram.
Proof.
  apply (@detectPlatform_tiktok_wins mixedUrl); apply includes_spec; reflexivity.
Defined.

Ltac holds :=
  repeat first [ apply Holds_first
               | apply Holds_further; [discriminate |]
               | apply Holds_nothing ].

Ltac represents :=
  eexists; split; [reflexivity |];
  cbn [holdsText holdsNumber fmt_acodec fmt_vcodec fmt_abr fmt_url
       Formats.audio Formats.storyboard Formats.plainAudio];
  unfold holdsNothing; repeat split; try (left; holds); holds.

(** C5: a formats list with an audio-only entry and a null entry selects
    nothing, the derivation throws; and in a formats list that starts with
    a storyboard, the one format that declares an audio codec and no video
    codec is the audio stream, yet the URL of the storyboard is selected. *)
Lemma highest_bitrate_audio_only_entry_counterexample :
  (Represents (entry 128 "https://a/128") (Formats.audio 128 "https://a/128") /\
   audioOnlyFormat (Formats.audio 128 "https://a/128") = true /\
   exists msg, selectFormatsAudioUrl Formats.withNullEntry = Err (TypeError msg)) /\
  (Forall2 Represents [Formats.storyboardEntry; Formats.plainAudioEntry]
                      [Formats.storyboard; Formats.plainAudio] /\
   HighestBitrateFirst [Formats.storyboard; Formats.plainAudio] Formats.plainAudio /\
   fmt_url Formats.plainAudio = JStr "https://a/1" /\
   selectFormatsAudioUrl Formats.withStoryboard = Ok (JStr "https://sb/0")).
Proof.
  split.
  - split; [represents |]. split; [reflexivity |]. eexists. reflexivity.
  - split; [repeat constructor; represents |].
    split; [| split; reflexivity].
    exists [Formats.storyboard], []. repeat split.
    + constructor; [| constructor]. intros F. discriminate F.
    + constructor.
Qed.

(** C5 on audio-only entries with bitrates 64, 128 and 96: the URL of the
    128 entry is selected. *)
Lemma highest_bitrate_audio_only_entry_is_selected_witness :
  selectFormatsAudioUrl formatsMetadata = Ok (JStr "https://a/128") /\
  selectAudioUrl formatsMetadata tiktok = Ok (JStr "https://a/128").
Proof.
  destruct (@highest_bitrate_audio_only_entry_is_selected posix formatsMetadata _
              [entry 64 "https://a/64"; entry 128 "https://a/128";
               entry 96 "https://a/96"]
              [Formats.audio 64 "https://a/64"; Formats.audio 128 "https://a/128";
               Formats.audio 96 "https://a/96"] eq_refl) as [_ Hsel].
  - holds.
  - repeat constructor; represents.
  - repeat constructor; intros [F _]; discriminate F.
  - exists (Formats.audio 128 "https://a/128"). split; [| reflexivity].
    right. left. reflexivity.
  - destruct (Hsel (Formats.audio 128 "https://a/128")) as [Hformats Hrequest].
    + exists [Formats.audio 64 "https://a/64"], [Formats.audio 96 "https://a/96"].
      repeat split.
      * constructor; [| constructor]. intros _. cbn. lra.
      * constructor; [| constructor]. intros _. cbn. lra.
    + split; [exact Hformats |]. apply Hrequest. left.
      exists "https://a/128". split; [reflexivity | discriminate].
Defined.

(** C6 on a list of two thumbnails, and on metadata with the singular
    field only. *)
Lemma thumbnail_is_last_of_list_or_singular_field_witness :
  selectThumbnailUrl formatsMetadata = JStr "https://t/2.jpg" /\
  selectThumbnailUrl (JObj [("thumbnail", JStr "https://t/0.jpg")])
  = JStr "https://t/0.jpg".
Proof.
  split.
  - apply (proj1 (thumbnail_is_last_of_list_or_singular_field formatsMetadata)
             [JObj [("url", JStr "https://t/1.jpg")]]
             (JObj [("url", JStr "https://t/2.jpg")])).
    reflexivity.
  - apply (proj2 (proj2 (thumbnail_is_last_of_list_or_singular_field
                           (JObj [("thumbnail", JStr "https://t/0.jpg")])))).
    intros thumbnails. discriminate.
Defined.

(** C7: the executable launches, runs and exits with 1, and the
    interpreter is launched all the same. *)
Lemma runYtDlpRaw_nonzero_exit_counterexample :
  fst (handle (Spawn "yt-dlp" ["-J"] None getAugmentedEnv) exitsNonZero)
    = ChildClose (Some 1%Z) "" "ERROR: unavailable" /\
  spawned (calls (exec (runYtDlpRaw ["-J"] None) exitsNonZero))
    = [("yt-dlp", ["-J"]); ("python", ["-m"; "yt_dlp"; "-J"])] /\
  spawned (calls (exec (runYtDlpRaw ["-J"] None) exitsNonZero))
    <> [("yt-dlp", ["-J"])].
Proof. repeat split. discriminate. Qed.

Lemma runYtDlpRaw_falls_back_on_every_rejection_witness :
  spawned (calls (exec (runYtDlpRaw ["-J"] None) (smooth "{}" [] [])))
    = [("yt-dlp", ["-J"])] /\
  spawned (calls (exec (runYtDlpRaw ["-J"] None) notInstalled))
    = [("yt-dlp", ["-J"]); ("python", ["-m"; "yt_dlp"; "-J"])] /\
  spawned (calls (exec (runYtDlpRaw ["-J"] None) exitsNonZero))
    = [("yt-dlp", ["-J"]); ("python", ["-m"; "yt_dlp"; "-J"])].
Proof.
  split; [| split].
  - apply (proj1 (@runYtDlpRaw_falls_back_on_every_rejection posix Script scripted
                    ["-J"] None (smooth "{}" [] []))).
    reflexivity.
  - apply (proj2 (@runYtDlpRaw_falls_back_on_every_rejection posix Script scripted
                    ["-J"] None notInstalled)).
    left. reflexivity.
  - apply (proj2 (@runYtDlpRaw_falls_back_on_every_rejection posix Script scripted
                    ["-J"] None exitsNonZero)).
    right. reflexivity.
Defined.

(** C8 on the URL of a reel with a tracking parameter. *)
Lemma inputUrl_is_verbatim_and_extractor_gets_clean_url_witness :
  (exists r,
     outcome (exec (downloadVideoAndExtractAudio reelUrl)
                (smooth probeStdout ["3f2a-clip.mp4"] ["3f2a-audio.mp3"])) = Ok r /\
     inputUrl r = reelUrl) /\
  Forall (fun launch => last (snd launch) "" = "https://www.instagram.com/reel/Cabc/")
    (spawned (calls (exec (downloadVideoAndExtractAudio reelUrl)
                       (smooth probeStdout ["3f2a-clip.mp4"] ["3f2a-audio.mp3"])))) /\
  cleanInstagramUrl tiktokUrl = tiktokUrl.
Proof.
  pose proof (@inputUrl_is_verbatim_and_extractor_gets_clean_url posix Script
                scripted reelUrl
                (smooth probeStdout ["3f2a-clip.mp4"] ["3f2a-audio.mp3"]))
    as (Hinput & Hlaunches & Hcut & _).
  assert (Hclean : cleanInstagramUrl reelUrl = "https://www.instagram.com/reel/Cabc/").
  { apply (proj1 (Hcut (proj1 (includes_spec reelUrl "instagram.com") eq_refl))
             "https://www.instagram.com/reel/Cabc/" "igsh=MzRlODBiNWFlZA==");
      reflexivity. }
  split; [| split].
  - eexists. split; [reflexivity |]. apply Hinput. reflexivity.
  - rewrite <- Hclean. exact Hlaunches.
  - apply (proj2 (proj2 (proj2
             (@inputUrl_is_verbatim_and_extractor_gets_clean_url posix Script
                scripted tiktokUrl (smooth probeStdout [] []))))).
    apply includes_false. reflexivity.
Defined.

(** C9: the request is classified tiktok, and the arguments of its
    launches are the profile of instagram. *)
Lemma platform_reuse_counterexample :
  detectPlatform mixedUrl = tiktok /\
  buildCommonArgs (cleanInstagramUrl mixedUrl) = platformProfile instagram /\
  buildCommonArgs (cleanInstagramUrl mixedUrl)
    <> platformProfile (detectPlatform mixedUrl).
Proof. repeat split. discriminate. Qed.

Lemma platform_reuse_and_argument_profile_witness :
  buildCommonArgs (cleanInstagramUrl reelUrl) = platformProfile instagram /\
  buildCommonArgs (cleanInstagramUrl tiktokUrl) = platformProfile tiktok.
Proof.
  split.
  - apply (proj2 (proj2 (@platform_reuse_and_argument_profile posix Script scripted
                           reelUrl (smooth probeStdout [] [])))).
    right. split.
    + apply includes_false. reflexivity.
    + apply includes_spec. reflexivity.
  - apply (proj2 (proj2 (@platform_reuse_and_argument_profile posix Script scripted
                           tiktokUrl (smooth probeStdout [] [])))).
    left. apply includes_false. reflexivity.
Defined.

(** ** The further properties on concrete requests *)

Import Scenario.

Lemma cleanInstagramUrl_idempotent_witness :
  occurs "?" (cleanInstagramUrl reelUrl) = false.
Proof.
  apply (proj2 (proj2 (cleanInstagramUrl_idempotent reelUrl))).
  apply includes_spec. reflexivity.
Defined.

Lemma getAugmentedEnv_touches_PATH_only_witness :
  envGet "TEMP" (@getAugmentedEnv windows) = Some "C:\Temp" /\
  @getAugmentedEnv posix = [("PATH", "/usr/bin")].
Proof.
  split.
  - apply (proj1 (@getAugmentedEnv_touches_PATH_only windows) "TEMP"). discriminate.
  - apply (proj2 (@getAugmentedEnv_touches_PATH_only posix)). left. reflexivity.
Defined.

Lemma getAugmentedEnv_prepends_scripts_dir_witness :
  envGet "PATH" (@getAugmentedEnv windows)
  = Some "C:\Users\u\AppData\Roaming\Python\Python312\Scripts;C:\Windows".
Proof.
  apply (proj1 (@getAugmentedEnv_prepends_scripts_dir windows
                  "C:\Users\u\AppData\Roaming" eq_refl eq_refl
                  ltac:(discriminate)) "C:\Windows" eq_refl).
  discriminate.
Defined.

Lemma buildCommonArgs_ffmpeg_location_witness :
  ~ In "--ffmpeg-location" (@buildCommonArgs posix tiktokUrl) /\
  exists rest,
    @buildCommonArgs windows tiktokUrl =
    "--geo-bypass" :: "--user-agent" :: MODERN_UA
      :: "--ffmpeg-location" :: @getFFmpegLocation windows :: rest.
Proof.
  split.
  - apply (proj1 (@buildCommonArgs_ffmpeg_location posix tiktokUrl)). reflexivity.
  - apply (proj2 (@buildCommonArgs_ffmpeg_location windows tiktokUrl)). reflexivity.
Defined.

Lemma buildCommonArgs_both_domains_witness :
  @buildCommonArgs posix mixedUrl
  = (@platformProfile posix tiktok ++ instagramFlags)%list.
Proof.
  apply (@buildCommonArgs_both_domains posix mixedUrl);
    apply includes_spec; reflexivity.
Defined.

Lemma categorizeError_extraction_comes_first_witness :
  statusCode (categorizeError
                (Some "Command failed (1): yt-dlp -J: network timeout, HTTP Error 404"))
  = 422%Z.
Proof.
  apply (@categorizeError_extraction_comes_first
           "Command failed (1): yt-dlp -J: network timeout, HTTP Error 404").
  left. apply includes_spec. reflexivity.
Defined.

Lemma categorizeError_default_iff_witness :
  statusCode (categorizeError (Some "ENOENT: no such file or directory")) = 500%Z.
Proof.
  apply (proj2 (categorizeError_default_iff "ENOENT: no such file or directory")).
  repeat constructor; apply includes_false; reflexivity.
Defined.

Lemma runYtDlpRaw_resolves_iff_witness :
  exists o, outcome (exec (runYtDlpRaw ["-J"] None) notInstalled) = Ok o.
Proof.
  apply (proj1 (@runYtDlpRaw_resolves_iff posix Script scripted
                  ["-J"] None notInstalled)).
  right. reflexivity.
Defined.

Lemma runYtDlpRaw_rejection_is_extraction_error_witness :
  exists m,
    outcome (exec (runYtDlpRaw ["-J"] None) probeFails) = Err (Error m) /\
    statusCode (categorizeError (Some m)) = 422%Z.
Proof.
  destruct (proj2 (@runYtDlpRaw_rejection_is_extraction_error posix Script scripted
                     ["-J"] None probeFails _ eq_refl) eq_refl)
    as (m & Hm & Hs & _).
  exists m. split; [| exact Hs]. now rewrite <- Hm.
Defined.

Lemma invocation_failure_ends_the_run_witness :
  List.length (calls (exec (downloadVideoAndExtractAudio tiktokUrl) probeFails))
  = 3%nat.
Proof.
  rewrite (proj2 (proj1 (@invocation_failure_ends_the_run posix Script scripted
                           tiktokUrl probeFails _) eq_refl)).
  reflexivity.
Defined.

Lemma audio_extraction_failure_discards_the_video_witness :
  exists e,
    outcome (exec (downloadVideoAndExtractAudio tiktokUrl) audioFails) = Err e.
Proof.
  eexists.
  apply (@audio_extraction_failure_discards_the_video posix Script scripted
           tiktokUrl audioFails
           {| stdout := probeStdout; stderr := "" |} {| stdout := ""; stderr := "" |}
           (JStr "https://a/128") ["3f2a-clip.mp4"] "3f2a-clip.mp4");
    try reflexivity.
  - now left.
  - apply startsWith_spec. reflexivity.
Defined.

Lemma unreadable_directory_fails_the_request_witness :
  outcome (exec (downloadVideoAndExtractAudio tiktokUrl) downloadsUnreadable)
  = Err (SystemError "ENOENT").
Proof.
  apply (proj1 (@unreadable_directory_fails_the_request posix Script scripted
                  tiktokUrl downloadsUnreadable
                  {| stdout := probeStdout; stderr := "" |}
                  {| stdout := ""; stderr := "" |}
                  (JStr "https://a/128") (SystemError "ENOENT")
                  eq_refl eq_refl eq_refl)).
  reflexivity.
Defined.

Lemma enrichment_failure_ends_the_run_witness :
  spawned (calls (@exec Script scripted _
                    (@downloadVideoAndExtractAudio posix3 tiktokUrl)
                    (smooth oddStdout ["3f2a-clip.mp4"] [])))
  = [("yt-dlp", (@buildCommonArgs posix3 tiktokUrl ++ ["-J"; "--no-playlist"; tiktokUrl])%list)].
Proof.
  rewrite (proj2 (@enrichment_failure_ends_the_run posix3 Script scripted
                    tiktokUrl (smooth oddStdout ["3f2a-clip.mp4"] [])
                    {| stdout := oddStdout; stderr := "" |}
                    (TypeError "metadata.formats.filter is not a function")
                    eq_refl eq_refl)).
  reflexivity.
Defined.

Lemma record_names_first_file_of_request_witness :
  exists r,
    outcome (exec (downloadVideoAndExtractAudio tiktokUrl)
               (smooth probeStdout
                  ["9b7d-clip.mp4"; "3f2a-clip.mp4"; "3f2a-clip.f137.mp4"] []))
    = Ok r /\
    HasPrefix (filename r) (id r ++ "-").
Proof.
  eexists. split; [reflexivity |].
  refine (proj1 (proj2 (@record_names_first_file_of_request posix Script scripted
                          tiktokUrl
                          (smooth probeStdout
                             ["9b7d-clip.mp4"; "3f2a-clip.mp4"; "3f2a-clip.f137.mp4"] [])
                          _ eq_refl))).
Defined.

Lemma audioPath_names_an_audio_file_of_request_witness :
  exists audios f,
    fst (audiosListing tiktokUrl
           (smooth probeStdout ["3f2a-clip.mp4"] ["3f2a-audio.webm"; "3f2a-audio.mp3"]))
    = Ok audios /\
    In f audios /\ HasPrefix f ("3f2a" ++ "-audio") /\ HasSuffix f ".mp3" /\
    "audios/3f2a-audio.mp3" = path_relative process_cwd (path_join [audiosDir; f]).
Proof.
  refine (@audioPath_names_an_audio_file_of_request posix Script scripted
            tiktokUrl
            (smooth probeStdout ["3f2a-clip.mp4"] ["3f2a-audio.webm"; "3f2a-audio.mp3"])
            _ "audios/3f2a-audio.mp3" eq_refl eq_refl).
Defined.

Lemma missing_video_file_is_answered_404_witness :
  exists m,
    outcome (exec (downloadVideoAndExtractAudio tiktokUrl)
               (smooth probeStdout ["9b7d-clip.mp4"] [])) = Err (Error m) /\
    statusCode (categorizeError (Some m)) = 404%Z /\
    errorType (categorizeError (Some m)) = "NotFoundError".
Proof.
  apply (@missing_video_file_is_answered_404 posix Script scripted
           tiktokUrl (smooth probeStdout ["9b7d-clip.mp4"] [])
           {| stdout := probeStdout; stderr := "" |}
           {| stdout := ""; stderr := "" |}
           (JStr "https://a/128") ["9b7d-clip.mp4"]);
    try reflexivity.
  intros f [<- | []] Hpre. apply startsWith_spec in Hpre. discriminate Hpre.
Defined.

Lemma malformed_formats_throw_witness :
  (exists msg, @selectAudioUrl posix oddMetadata instagram = Err (TypeError msg)) /\
  (exists msg,
     @selectAudioUrl posix
       (JObj [("formats", JArr [entry 64 "https://a/64"; JNull])]) instagram
     = Err (TypeError msg)).
Proof.
  split.
  - apply (proj1 (@malformed_formats_throw posix oddMetadata instagram)).
    + reflexivity.
    + intros items. discriminate.
  - apply (proj2 (@malformed_formats_throw posix
                    (JObj [("formats", JArr [entry 64 "https://a/64"; JNull])])
                    instagram)
             [entry 64 "https://a/64"; JNull] eq_refl).
    apply Exists_cons_tl, Exists_cons_hd. now left.
Defined.

Lemma no_audio_only_entry_selects_nothing_witness :
  @selectFormatsAudioUrl posix
    (JObj [("formats", JArr [JObj [("acodec", JStr "mp4a.40.2");
                                   ("vcodec", JStr "avc1.64001F");
                                   ("url", JStr "https://v/1")]])])
  = Ok JUndefined.
Proof.
  apply (@no_audio_only_entry_selects_nothing posix _
           [JObj [("acodec", JStr "mp4a.40.2"); ("vcodec", JStr "avc1.64001F");
                  ("url", JStr "https://v/1")]]).
  - reflexivity.
  - repeat constructor; discriminate.
  - reflexivity.
Defined.

Lemma music_field_shadows_track_and_song_witness :
  selectMusicUrl musicMetadata = JStr "https://m/play.mp3" /\
  selectMusicUrl
     (JObj [("music", JStr "tune"); ("track", JObj [("url", JStr "https://m/track.mp3")])])
  = JUndefined.
Proof.
  split.
  - rewrite (@music_field_shadows_track_and_song musicMetadata eq_refl).
    reflexivity.
  - rewrite (@music_field_shadows_track_and_song
               (JObj [("music", JStr "tune");
                      ("track", JObj [("url", JStr "https://m/track.mp3")])])
               eq_refl).
    reflexivity.
Defined.

Lemma music_fallback_is_for_tiktok_only_witness :
  @selectAudioUrl posix musicMetadata tiktok = Ok (JStr "https://m/play.mp3") /\
  @selectAudioUrl posix musicMetadata instagram = Ok JUndefined.
Proof.
  destruct (proj2 (@music_fallback_is_for_tiktok_only posix musicMetadata) eq_refl)
    as [Htiktok Hother].
  split.
  - rewrite Htiktok. reflexivity.
  - apply Hother. discriminate.
Defined.

Lemma record_id_is_in_both_templates_witness :
  exists rest,
    spawned (calls (audioStep tiktokUrl
                      (smooth probeStdout ["3f2a-clip.mp4"] ["3f2a-audio.mp3"])))
    = ("yt-dlp",
       (buildCommonArgs tiktokUrl
          ++ audioArgs "/app/audios/3f2a-audio.%(ext)s" tiktokUrl)%list) :: rest.
Proof.
  refine (proj2 (proj2 (@record_id_is_in_both_templates posix Script scripted
                          tiktokUrl
                          (smooth probeStdout ["3f2a-clip.mp4"] ["3f2a-audio.mp3"])
                          _ eq_refl))).
Defined.
